(** * videojs-concurrence-limiter: the plugin of [src/plugin.js], embedded

    The plugin is event driven: the host (a video.js player in a browser
    window) calls the plugin's callbacks one at a time.  The embedding keeps
    that shape.  Every source function is a computation in a small
    state-and-output monad [Js] over a [World]; the world holds the mutable
    variables of the source (the plugin instance, the closure variables of
    [makeWatchdog]) next to the part of the host that the code reads back
    (session storage, the interval table, listeners, outstanding requests).
    Calls into the host are recorded, in order, as [Effect]s. *)

From Stdlib Require Import ZArith List String Ascii Bool Lia QArith Qround.
Import ListNotations.
Set Warnings "-register-all".
Open Scope string_scope.
Open Scope Z_scope.

(** ** JavaScript values *)

(** Numbers are restricted to integers, which is all the plugin's own
    counters and the claims need; an object lists each field once. *)
Inductive JsVal : Type :=
| JUndefined
| JNull
| JBool (b : bool)
| JNum (z : Z)
| JStr (s : string)
| JObj (fields : list (string * JsVal)).

(** ToBoolean. *)
Definition truthy (v : JsVal) : bool :=
  match v with
  | JUndefined | JNull => false
  | JBool b => b
  | JNum z => negb (z =? 0)
  | JStr s => negb (s =? "")%string
  | JObj _ => true
  end.

(** [a || b] *)
Definition js_or (a b : JsVal) : JsVal := if truthy a then a else b.

Fixpoint lookup_field (k : string) (fs : list (string * JsVal)) : JsVal :=
  match fs with
  | [] => JUndefined
  | (k', v) :: rest => if (k =? k')%string then v else lookup_field k rest
  end.

(** [v.k]; only ever evaluated behind a truthiness guard on [v]. *)
Definition prop (v : JsVal) (k : string) : JsVal :=
  match v with
  | JObj fs => lookup_field k fs
  | _ => JUndefined
  end.

(** [new Error(msg)] *)
Definition new_Error (msg : JsVal) : JsVal :=
  JObj [("name", JStr "Error"); ("message", msg)].

(** ** Options *)

(** The options, the numeric ones as integers, like the defaults: an
    interval, a start position, a maximum or a timeout that is not an
    integer number is outside this record. *)
Record Options : Type := mkOptions {
  interval : Z;
  accessurl : JsVal;
  updateurl : JsVal;
  disposeurl : JsVal;
  playerID : JsVal;
  startPosition : Z;
  maxUpdateFails : Z;
  requestTimeoutInMillis : Z
}.

Definition defaults : Options := {|
  interval := 10;
  accessurl := JNull;
  updateurl := JNull;
  disposeurl := JNull;
  playerID := JNull;
  startPosition := 0;
  maxUpdateFails := 1;
  requestTimeoutInMillis := 15 * 1000
|}.

(** What the page passes to the plugin: any subset of the keys. *)
Record UserOptions : Type := mkUserOptions {
  u_interval : option Z;
  u_accessurl : option JsVal;
  u_updateurl : option JsVal;
  u_disposeurl : option JsVal;
  u_playerID : option JsVal;
  u_startPosition : option Z;
  u_maxUpdateFails : option Z;
  u_requestTimeoutInMillis : option Z
}.

Definition no_options : UserOptions :=
  mkUserOptions None None None None None None None None.

Definition override {A : Type} (d : A) (u : option A) : A :=
  match u with Some x => x | None => d end.

(** [videojs.mergeOptions(defaults, useroptions)]: a key the user gives
    replaces the default. *)
Definition mergeOptions (d : Options) (u : UserOptions) : Options := {|
  interval := override (interval d) (u_interval u);
  accessurl := override (accessurl d) (u_accessurl u);
  updateurl := override (updateurl d) (u_updateurl u);
  disposeurl := override (disposeurl d) (u_disposeurl u);
  playerID := override (playerID d) (u_playerID u);
  startPosition := override (startPosition d) (u_startPosition u);
  maxUpdateFails := override (maxUpdateFails d) (u_maxUpdateFails u);
  requestTimeoutInMillis :=
    override (requestTimeoutInMillis d) (u_requestTimeoutInMillis u)
|}.

Definition set_playerID (v : JsVal) (o : Options) : Options :=
  mkOptions (interval o) (accessurl o) (updateurl o) (disposeurl o) v
            (startPosition o) (maxUpdateFails o) (requestTimeoutInMillis o).

(** ** ConcurrentViewIdMaker *)

Module ConcurrentViewIdMaker.

Definition sessionStorageKey : string := "vcl-player-id".

(** A result of [Math.random()]: the double [mant / 2^expo], in [0, 1). *)
Record Dyadic : Type := mkDyadic { mant : Z; expo : nat }.

Definition digit_char (d : Z) : ascii :=
  nth (Z.to_nat d)
      (list_ascii_of_string "0123456789abcdefghijklmnopqrstuvwxyz")
      "0"%char.

(** The digits of the fraction [k / d] in the given radix, until the
    remainder is zero. *)
Fixpoint fraction_digits (fuel : nat) (radix k d : Z) : list Z :=
  match fuel with
  | O => []
  | S fuel' =>
      if k =? 0 then []
      else (k * radix / d) :: fraction_digits fuel' radix (k * radix mod d) d
  end.

(** [x.toString(radix)] for [x] in [0, 1).  The exact expansion: one
    multiplication by an even radix clears at least one bit, so [expo x]
    digits are enough.  ECMAScript leaves the algorithm for a radix other
    than ten to the engine; on a short fraction such as one half every
    engine prints these digits. *)
Definition Number_toString (x : Dyadic) (radix : Z) : string :=
  if mant x =? 0 then "0"
  else "0." ++ string_of_list_ascii
                 (map digit_char
                      (fraction_digits (expo x) radix (mant x) (2 ^ Z.of_nat (expo x)))).

(** [s.substr(start)] *)
Fixpoint substr (start : nat) (s : string) : string :=
  match start, s with
  | O, _ => s
  | S n, EmptyString => EmptyString
  | S n, String _ s' => substr n s'
  end.

(** [generateRandom(len)]; [None] is a call without the argument. *)
Definition generateRandom (Math_random : Dyadic) (len : option Z) : string :=
  let len_or_30 := match len with
                   | Some l => if l =? 0 then 30 else l
                   | None => 30
                   end in
  substr 2 (Number_toString Math_random (len_or_30 + 2)).

(** [window.sessionStorage]: [None] when the window has none. *)
Definition Storage : Type := option (list (string * string)).

Fixpoint getItem (k : string) (items : list (string * string)) : option string :=
  match items with
  | [] => None
  | (k', v) :: rest => if (k =? k')%string then Some v else getItem k rest
  end.

Definition setItem (k v : string) (items : list (string * string))
  : list (string * string) :=
  (k, v) :: filter (fun kv => negb (k =? fst kv)%string) items.

(** [generateBySessionStorage()]: the id, or null, and the storage after. *)
Definition generateBySessionStorage (Math_random : Dyadic) (st : Storage)
  : JsVal * Storage :=
  match st with
  | None => (JNull, st)
  | Some items =>
      match getItem sessionStorageKey items with
      | Some id =>
          if negb (id =? "")%string then (JStr id, st)
          else
            let id := "ssi-" ++ generateRandom Math_random None in
            (JStr id, Some (setItem sessionStorageKey id items))
      | None =>
          let id := "ssi-" ++ generateRandom Math_random None in
          (JStr id, Some (setItem sessionStorageKey id items))
      end
  end.

(** [generate(options)] *)
Definition generate (Math_random : Dyadic) (st : Storage) (options : Options)
  : JsVal * Storage :=
  if truthy (playerID options) then (playerID options, st)
  else
    let (id, st') := generateBySessionStorage Math_random st in
    (js_or id (JStr ("rdm-" ++ generateRandom Math_random None)), st').

End ConcurrentViewIdMaker.
Import ConcurrentViewIdMaker.

(** ** The host and the plugin's variables *)

(** The callbacks handed to [makeRequest]. *)
Inductive Callback : Type :=
| cbValidate   (* the arrow function of validatePlay *)
| cbUpdate     (* the arrow function inside wdf *)
| cbDispose.   (* the empty function of cleanUp *)

Inductive EventName : Type :=
| ev_loadedmetadata
| ev_timeupdate
| ev_dispose
| ev_beforeunload.

(** The functions registered as listeners. *)
Inductive Handler : Type :=
| hRecover (position : JsVal)   (* () => this.currentTime = info.position *)
| hLoaded                       (* () => loadedmetadata = true *)
| hTimeupdate
| hCleanUp.

(** Calls into the host, in program order. *)
Inductive Effect : Type :=
| Log (label : string)
| AddClass (name : string)
| Xhr (url data : JsVal) (timeout : Z) (cb : Callback)
| Trigger (event : JsVal)
| Pause
| Dispose
| On (ev : EventName) (h : Handler)
| SetInterval (ms id : Z)
| ClearInterval (handle : JsVal)
| SetProp (target name : string) (v : JsVal)
| Throws (what : string).

Record Host : Type := mkHost {
  sessionStorage : Storage;
  interval_id : Z;                          (* what player.setInterval returns *)
  timers : list Z;                          (* intervals that are installed *)
  paused : bool;                            (* player.paused() *)
  position : Q;                             (* the player's playback position *)
  currentTime_prop : option JsVal;          (* Some v: player.currentTime was assigned v *)
  listeners : list (EventName * Handler);
  pending : list Callback                   (* requests without a response yet *)
}.

(** The instance of ConcurrentViewPlugin. *)
Record Plugin : Type := mkPlugin {
  options : Options;
  fistSent : bool;
  this_currentTime : JsVal
}.

(** The variables declared with [let] in makeWatchdog. *)
Record Closure : Type := mkClosure {
  watchdog : JsVal;
  lasTime : Z;
  playerToken : JsVal;
  playerID' : JsVal;
  loadedmetadata : bool;
  pendingRequest : bool;
  failedRequest : Z
}.

Record World : Type := mkWorld {
  host : Host;
  this : Plugin;
  vars : Closure
}.

Definition set_timers x (h : Host) :=
  mkHost (sessionStorage h) (interval_id h) x (paused h) (position h)
         (currentTime_prop h) (listeners h) (pending h).
Definition set_paused x (h : Host) :=
  mkHost (sessionStorage h) (interval_id h) (timers h) x (position h)
         (currentTime_prop h) (listeners h) (pending h).
Definition set_position x (h : Host) :=
  mkHost (sessionStorage h) (interval_id h) (timers h) (paused h) x
         (currentTime_prop h) (listeners h) (pending h).
Definition set_currentTime_prop x (h : Host) :=
  mkHost (sessionStorage h) (interval_id h) (timers h) (paused h) (position h)
         x (listeners h) (pending h).
Definition set_listeners x (h : Host) :=
  mkHost (sessionStorage h) (interval_id h) (timers h) (paused h) (position h)
         (currentTime_prop h) x (pending h).
Definition set_pending x (h : Host) :=
  mkHost (sessionStorage h) (interval_id h) (timers h) (paused h) (position h)
         (currentTime_prop h) (listeners h) x.

Definition set_fistSent x (p : Plugin) :=
  mkPlugin (options p) x (this_currentTime p).
Definition set_this_currentTime x (p : Plugin) :=
  mkPlugin (options p) (fistSent p) x.

Definition set_watchdog x (c : Closure) :=
  mkClosure x (lasTime c) (playerToken c) (playerID' c) (loadedmetadata c)
            (pendingRequest c) (failedRequest c).
Definition set_lasTime x (c : Closure) :=
  mkClosure (watchdog c) x (playerToken c) (playerID' c) (loadedmetadata c)
            (pendingRequest c) (failedRequest c).
Definition set_playerToken x (c : Closure) :=
  mkClosure (watchdog c) (lasTime c) x (playerID' c) (loadedmetadata c)
            (pendingRequest c) (failedRequest c).
Definition set_playerID' x (c : Closure) :=
  mkClosure (watchdog c) (lasTime c) (playerToken c) x (loadedmetadata c)
            (pendingRequest c) (failedRequest c).
Definition set_loadedmetadata x (c : Closure) :=
  mkClosure (watchdog c) (lasTime c) (playerToken c) (playerID' c) x
            (pendingRequest c) (failedRequest c).
Definition set_pendingRequest x (c : Closure) :=
  mkClosure (watchdog c) (lasTime c) (playerToken c) (playerID' c)
            (loadedmetadata c) x (failedRequest c).
Definition set_failedRequest x (c : Closure) :=
  mkClosure (watchdog c) (lasTime c) (playerToken c) (playerID' c)
            (loadedmetadata c) (pendingRequest c) x.

(** ** The monad: a world threaded through, host calls written out *)

Definition Js (A : Type) : Type := World -> A * World * list Effect.

Definition ret {A : Type} (a : A) : Js A := fun w => (a, w, []).

Definition bind {A B : Type} (m : Js A) (f : A -> Js B) : Js B :=
  fun w =>
    match m w with
    | (a, w1, out1) =>
        match f a w1 with
        | (b, w2, out2) => (b, w2, (out1 ++ out2)%list)
        end
    end.

Declare Scope js_scope.
Delimit Scope js_scope with js.
Notation "x <- m ;; k" := (bind m (fun x => k))
  (at level 61, m at next level, right associativity) : js_scope.
Notation "m ;; k" := (bind m (fun _ => k))
  (at level 61, right associativity) : js_scope.
Open Scope js_scope.

Definition emit (e : Effect) : Js unit := fun w => (tt, w, [e]).
Definition read {A : Type} (f : World -> A) : Js A := fun w => (f w, w, []).
Definition upd_host (f : Host -> Host) (w : World) : World :=
  mkWorld (f (host w)) (this w) (vars w).
Definition upd_this (f : Plugin -> Plugin) (w : World) : World :=
  mkWorld (host w) (f (this w)) (vars w).
Definition upd_vars (f : Closure -> Closure) (w : World) : World :=
  mkWorld (host w) (this w) (f (vars w)).
Definition on_host (f : Host -> Host) : Js unit := fun w => (tt, upd_host f w, []).
Definition on_this (f : Plugin -> Plugin) : Js unit := fun w => (tt, upd_this f w, []).
Definition on_vars (f : Closure -> Closure) : Js unit := fun w => (tt, upd_vars f w, []).
Definition when (b : bool) (m : Js unit) : Js unit := if b then m else ret tt.

Fixpoint for_each {A : Type} (f : A -> Js unit) (l : list A) : Js unit :=
  match l with
  | [] => ret tt
  | x :: rest => f x ;; for_each f rest
  end.

Definition world_of {A : Type} (r : A * World * list Effect) : World := snd (fst r).
Definition effects_of {A : Type} (r : A * World * list Effect) : list Effect := snd r.

(** ** Host primitives *)

(** The player object when it is passed as a value. *)
Definition player : JsVal := JObj [("el_", JStr "video-js")].

Definition ev_eqb (a b : EventName) : bool :=
  match a, b with
  | ev_loadedmetadata, ev_loadedmetadata
  | ev_timeupdate, ev_timeupdate
  | ev_dispose, ev_dispose
  | ev_beforeunload, ev_beforeunload => true
  | _, _ => false
  end.

Definition cb_eqb (a b : Callback) : bool :=
  match a, b with
  | cbValidate, cbValidate | cbUpdate, cbUpdate | cbDispose, cbDispose => true
  | _, _ => false
  end.

Fixpoint remove_first (cb : Callback) (l : list Callback) : list Callback :=
  match l with
  | [] => []
  | x :: rest => if cb_eqb cb x then rest else x :: remove_first cb rest
  end.

(** [player.on(ev, h)] and [window.addEventListener(ev, h)] *)
Definition player_on (ev : EventName) (h : Handler) : Js unit :=
  emit (On ev h) ;;
  on_host (fun hst => set_listeners (listeners hst ++ [(ev, h)])%list hst).

Definition window_addEventListener (ev : EventName) (h : Handler) : Js unit :=
  player_on ev h.

(** [player.setInterval(fn, ms)]; the only function ever scheduled is wdf. *)
Definition player_setInterval (ms : Z) : Js JsVal :=
  id <- read (fun w => interval_id (host w)) ;;
  emit (SetInterval ms id) ;;
  on_host (fun hst => set_timers (id :: timers hst) hst) ;;
  ret (JNum id).

Definition player_clearInterval (handle : JsVal) : Js unit :=
  emit (ClearInterval handle) ;;
  on_host (fun hst =>
    set_timers (match handle with
                | JNum id => filter (fun t => negb (t =? id)) (timers hst)
                | _ => timers hst
                end) hst).

Definition player_pause : Js unit :=
  emit Pause ;; on_host (set_paused true).

(** [Math.round] *)
Definition Math_round (q : Q) : Z := Qfloor (q + (1 # 2)).

(** ** ConcurrentViewPlugin *)

(** [makeRequest(url, data, cb)], up to the call of [videojs.xhr]: the
    request goes out with the JSON text of [data ? data : {}]. *)
Definition makeRequest (url data : JsVal) (cb : Callback) : Js unit :=
  t <- read (fun w => requestTimeoutInMillis (options (this w))) ;;
  emit (Xhr url (if truthy data then data else JObj []) t cb) ;;
  on_host (fun hst => set_pending (pending hst ++ [cb])%list hst).

(** [validatePlay(cb)], up to the request. *)
Definition validatePlay : Js unit :=
  o <- read (fun w => options (this w)) ;;
  makeRequest (accessurl o) (JObj [("player", playerID o)]) cbValidate.

(** The clean-up function of makeWatchdog. *)
Definition cleanUp : Js unit :=
  emit (Log "concurrenceview: DISPOSE") ;;
  wd <- read (fun w => watchdog (vars w)) ;;
  when (truthy wd)
    (player_clearInterval wd ;;
     on_vars (set_watchdog (JBool false)) ;;
     o <- read (fun w => options (this w)) ;;
     c <- read vars ;;
     makeRequest (disposeurl o)
       (JObj [("player", playerID' c);
              ("position", JNum (lasTime c));
              ("token", playerToken c);
              ("status", JStr "paused")])
       cbDispose).

(** The timeupdate listener of makeWatchdog.  Calling [player.currentTime]
    after recoverStatus has assigned a number to it raises a TypeError, which
    video.js catches around each listener. *)
Definition on_timeupdate : Js unit :=
  lm <- read (fun w => loadedmetadata (vars w)) ;;
  fs <- read (fun w => fistSent (this w)) ;;
  if negb lm || negb fs then on_this (set_fistSent true)
  else
    hst <- read host ;;
    match currentTime_prop hst with
    | Some _ => emit (Throws "TypeError: player.currentTime is not a function")
    | None =>
        let cur := if Qeq_bool (position hst) 0 then 0%Q else position hst in
        on_vars (set_lasTime (Math_round cur))
    end.

Definition run_handler (h : Handler) : Js unit :=
  match h with
  | hRecover pos => on_this (set_this_currentTime pos)
  | hLoaded => on_vars (set_loadedmetadata true)
  | hTimeupdate => on_timeupdate
  | hCleanUp => cleanUp
  end.

(** The host delivers an event: the listeners registered for it run in
    registration order. *)
Definition fire (ev : EventName) : Js unit :=
  ls <- read (fun w => listeners (host w)) ;;
  for_each (fun l => when (ev_eqb (fst l) ev) (run_handler (snd l))) ls.

(** [player.dispose()]: video.js notifies the dispose listeners.  (It then
    drops the player's listeners; they are kept here, so that a dispose
    notification may arrive any number of times.)  A disposed player stays
    usable here, where video.js raises on a later [player.on] or
    [player.trigger]: what the plugin does on a response is therefore
    stated for a watchdog that holds its handle, or for a session in which
    the player was not disposed of before the response. *)
Definition player_dispose : Js unit :=
  emit Dispose ;; fire ev_dispose.

(** [blockPlayer(code, error, reason)] *)
Definition blockPlayer (code error reason : JsVal) : Js unit :=
  let code := js_or code (JStr "error") in
  let reason :=
    js_or reason (JStr "Has alcanzado la cantidad maxima de players activos.") in
  emit (Log "concurrenceview: stop player - ") ;;
  emit (Trigger (JObj [("type", JStr "avplayerbloked");
                       ("code", code);
                       ("reason", reason);
                       ("error", error)])) ;;
  player_pause ;;
  player_dispose.

(** [recoverStatus(info)] *)
Definition recoverStatus (info : JsVal) : Js unit :=
  if negb (truthy (prop info "position")) then ret tt
  else
    emit (SetProp "player" "currentTime" (prop info "position")) ;;
    on_host (set_currentTime_prop (Some (prop info "position"))) ;;
    player_on ev_loadedmetadata (hRecover (prop info "position")).

(** The function [wdf] of makeWatchdog, up to the request. *)
Definition wdf : Js unit :=
  pid <- read (fun w => playerID' (vars w)) ;;
  emit (Trigger (JObj [("type", JStr "avplayerupdate"); ("playerID", pid)])) ;;
  pr <- read (fun w => pendingRequest (vars w)) ;;
  if pr then ret tt
  else
    on_vars (set_pendingRequest true) ;;
    o <- read (fun w => options (this w)) ;;
    c <- read vars ;;
    p <- read (fun w => paused (host w)) ;;
    makeRequest (updateurl o)
      (JObj [("player", playerID' c);
             ("token", playerToken c);
             ("position", JNum (lasTime c));
             ("status", JStr (if p then "paused" else "playing"))])
      cbUpdate.

(** The callback [(error, response) => ...] that wdf gives to makeRequest. *)
Definition wdf_done (error response : JsVal) : Js unit :=
  on_vars (set_pendingRequest false) ;;
  if truthy error then
    o <- read (fun w => options (this w)) ;;
    fr <- read (fun w => failedRequest (vars w)) ;;
    when (maxUpdateFails o <=? fr)
      (emit (Log "concurrenceview: update api error") ;;
       blockPlayer player (JStr "authapifail") (JObj [("msg", error)])) ;;
    on_vars (fun c => set_failedRequest (failedRequest c + 1) c)
  else
    on_vars (set_failedRequest 0) ;;
    if truthy response && truthy (prop response "success") then
      on_vars (fun c => set_playerID' (js_or (prop response "player") (playerID' c)) c) ;;
      on_vars (fun c => set_playerToken (js_or (prop response "token") (playerToken c)) c)
    else
      emit (Log "Error: Player Auth error") ;;
      blockPlayer player (JStr "noauth") response.

(** [makeWatchdog(ok)] *)
Definition makeWatchdog (ok : JsVal) : Js unit :=
  o <- read (fun w => options (this w)) ;;
  on_vars (fun _ =>
    mkClosure JNull
              (if startPosition o =? 0 then 0 else startPosition o)
              JNull (playerID o) false false 0) ;;
  player_on ev_loadedmetadata hLoaded ;;
  player_on ev_timeupdate hTimeupdate ;;
  emit (Log "concurrence plugin: ok") ;;
  player_on ev_dispose hCleanUp ;;
  window_addEventListener ev_beforeunload hCleanUp ;;
  wd <- read (fun w => watchdog (vars w)) ;;
  when (negb (truthy wd))
    (on_vars (set_pendingRequest false) ;;
     on_vars (set_failedRequest 0) ;;
     id <- player_setInterval (interval o * 1000) ;;
     on_vars (set_watchdog id) ;;
     wdf).

(** The callback [(error, ok) => ...] that onPlayerReady gives to
    validatePlay. *)
Definition onPlayerReady_done (error ok : JsVal) : Js unit :=
  if truthy error then
    emit (Log "concurrenceview: error") ;;
    blockPlayer (JStr "cantplay") error JUndefined
  else
    recoverStatus ok ;;
    makeWatchdog ok.

(** The callback [(error, ok) => ...] that validatePlay gives to
    makeRequest; [cb] is the caller's callback. *)
Definition validatePlay_done (cb : JsVal -> JsVal -> Js unit) (error ok : JsVal)
  : Js unit :=
  if truthy error then
    emit (Log "concurrenceview: canplay api error") ;;
    cb (new_Error error) JNull
  else if truthy ok && truthy (prop ok "success") then
    cb JNull ok ;;
    emit (Trigger (JObj [("type", JStr "avplayercanplay"); ("code", JNum 1)]))
  else
    cb (new_Error (JStr "Player Auth error")) JNull.

(** The variables of makeWatchdog before the function has run; nothing
    reads them. *)
Definition undeclared : Closure :=
  mkClosure JUndefined 0 JUndefined JUndefined false false 0.

(** The page before the plugin runs: what the browser and the player
    bring with them. *)
Record Page : Type := mkPage {
  page_storage : Storage;
  page_interval_id : Z;
  page_paused : bool;
  page_position : Q
}.

(** [onPlayerReady(player, options)]: the plugin instance is built (its
    constructor asks the id maker for the player id) and validation starts.
    The plugin has no listener, interval or request of its own yet. *)
Definition onPlayerReady (pg : Page) (Math_random : Dyadic) (opts : Options)
  : unit * World * list Effect :=
  let (id, st) := generate Math_random (page_storage pg) opts in
  let cvPlugin := mkPlugin (set_playerID id opts) false JUndefined in
  let h := mkHost st (page_interval_id pg) [] (page_paused pg) (page_position pg)
                  None [] [] in
  (emit (AddClass "vjs-concurrence-limiter") ;; validatePlay)
    (mkWorld h cvPlugin undeclared).

(** [concurrenceLimiter(useroptions)], the body of the ready callback:
    no world when initialisation returns early. *)
Definition concurrenceLimiter (pg : Page) (Math_random : Dyadic) (useroptions : UserOptions)
  : option World * list Effect :=
  let opts := mergeOptions defaults useroptions in
  if negb (truthy (accessurl opts)) || negb (truthy (updateurl opts))
     || negb (truthy (disposeurl opts)) then
    (None, [Log "concurrenceview plugin"; Log "concurrenceview: invalid urls"])
  else if (interval opts =? 0) || (interval opts <? 5) then
    (None, [Log "concurrenceview plugin"; Log "concurrenceview: invalid options"])
  else
    let r := onPlayerReady pg Math_random opts in
    (Some (world_of r), Log "concurrenceview plugin" :: effects_of r).

(** ** The event loop *)

(** What the host can deliver to the plugin. *)
Inductive Event : Type :=
| EvXhr (cb : Callback) (err : JsVal) (body : string)
    (* the request that carries [cb] completes with (err, resp, body);
       [err] is null when the transport did not fail *)
| EvTick                       (* the interval fires *)
| EvLoadedMetadata
| EvTimeUpdate (cur : Q)       (* the playback position is now [cur] *)
| EvDispose                    (* the player is disposed by the page *)
| EvBeforeUnload
| EvPlay
| EvPause.

Section EventLoop.

(** [JSON.parse]: [None] when it throws. *)
Variable JSON_parse : string -> option JsVal.

(** The function that makeRequest gives to [videojs.xhr]: the pair
    it passes on to [cb]. *)
Definition makeRequest_done (err : JsVal) (body : string) : JsVal * JsVal :=
  let bodyJson :=
    if negb (body =? "")%string then
      match JSON_parse body with
      | Some v => v
      | None => JNull
      end
    else JObj [("error", JStr "invalid body"); ("body", JStr body)] in
  (if truthy err then js_or (prop err "message") err else JNull, bodyJson).

Definition callback (cb : Callback) (error bodyJson : JsVal) : Js unit :=
  match cb with
  | cbValidate => validatePlay_done onPlayerReady_done error bodyJson
  | cbUpdate => wdf_done error bodyJson
  | cbDispose => ret tt
  end.

(** One turn of the event loop.  An event the host cannot deliver (a
    response nobody waits for, a tick without an interval) does nothing. *)
Definition step (ev : Event) : Js unit :=
  match ev with
  | EvXhr cb err body =>
      p <- read (fun w => pending (host w)) ;;
      if existsb (cb_eqb cb) p then
        on_host (set_pending (remove_first cb p)) ;;
        callback cb (fst (makeRequest_done err body))
                    (snd (makeRequest_done err body))
      else ret tt
  | EvTick =>
      t <- read (fun w => timers (host w)) ;;
      match t with
      | [] => ret tt
      | _ :: _ => wdf
      end
  | EvLoadedMetadata => fire ev_loadedmetadata
  | EvTimeUpdate cur => on_host (set_position cur) ;; fire ev_timeupdate
  | EvDispose => fire ev_dispose
  | EvBeforeUnload => fire ev_beforeunload
  | EvPlay => on_host (set_paused false)
  | EvPause => on_host (set_paused true)
  end.

Definition run (evs : list Event) : Js unit := for_each step evs.

(** A whole session: the plugin is set up on a ready player, then the
    events arrive. *)
Definition session (pg : Page) (Math_random : Dyadic) (useroptions : UserOptions)
           (evs : list Event) : option World * list Effect :=
  match concurrenceLimiter pg Math_random useroptions with
  | (None, out) => (None, out)
  | (Some w, out) =>
      (Some (world_of (run evs w)), (out ++ effects_of (run evs w))%list)
  end.

End EventLoop.

(** ** Reading a trace *)

Definition is_type (t : string) (e : Effect) : bool :=
  match e with
  | Trigger ev => match prop ev "type" with
                  | JStr s => (s =? t)%string
                  | _ => false
                  end
  | _ => false
  end.

(** The heartbeat event, the block notification. *)
Definition is_update_event : Effect -> bool := is_type "avplayerupdate".
Definition is_blocked_event : Effect -> bool := is_type "avplayerbloked".

(** A request, by the callback it was issued with. *)
Definition is_request (cb : Callback) (e : Effect) : bool :=
  match e with
  | Xhr _ _ _ cb' => cb_eqb cb cb'
  | _ => false
  end.

Definition is_release : Effect -> bool := is_request cbDispose.

Definition is_network (e : Effect) : bool :=
  match e with Xhr _ _ _ _ => true | _ => false end.

Definition is_setInterval (e : Effect) : bool :=
  match e with SetInterval _ _ => true | _ => false end.

Definition is_clearInterval (e : Effect) : bool :=
  match e with ClearInterval _ => true | _ => false end.

Definition count (p : Effect -> bool) (l : list Effect) : nat :=
  List.length (filter p l).

(** Requests to the update url that have no response yet. *)
Definition outstanding_updates (w : World) : nat :=
  List.length (filter (cb_eqb cbUpdate) (pending (host w))).

(** ** Concrete inputs *)

(** Request bodies a server may answer with. *)
Definition quoted (s : string) : string :=
  String (ascii_of_nat 34) (s ++ String (ascii_of_nat 34) "").

Definition body_granted : string := "{" ++ quoted "success" ++ ":true}".
Definition body_denied : string := "{" ++ quoted "success" ++ ":false}".
Definition body_token : string :=
  "{" ++ quoted "success" ++ ":true," ++ quoted "token" ++ ":" ++ quoted "T1" ++ "}".
Definition body_position : string :=
  "{" ++ quoted "success" ++ ":true," ++ quoted "position" ++ ":45}".
Definition body_html : string := "<html>502 Bad Gateway</html>".

(** [JSON.parse] on these sample texts and on the literal [null]; it is
    only run on bodies on which it agrees with the real one. *)
Definition json_samples (s : string) : option JsVal :=
  if (s =? "null")%string then Some JNull
  else if (s =? body_granted)%string then Some (JObj [("success", JBool true)])
  else if (s =? body_denied)%string then Some (JObj [("success", JBool false)])
  else if (s =? body_token)%string then
    Some (JObj [("success", JBool true); ("token", JStr "T1")])
  else if (s =? body_position)%string then
    Some (JObj [("success", JBool true); ("position", JNum 45)])
  else None.

(** A transport failure as [videojs.xhr] reports it. *)
Definition timeout_error : JsVal :=
  JObj [("name", JStr "Error"); ("message", JStr "XMLHttpRequest timeout")].

Definition fresh_page : Page := mkPage (Some []) 7 true 0%Q.

Definition one_half : Dyadic := mkDyadic 1 1.

Definition urls (u : UserOptions) : UserOptions :=
  mkUserOptions (u_interval u)
                (Some (JStr "/access")) (Some (JStr "/update")) (Some (JStr "/dispose"))
                (u_playerID u) (u_startPosition u) (u_maxUpdateFails u)
                (u_requestTimeoutInMillis u).

(** [clearInterval] called on the interval [id]. *)
Definition clears (id : Z) (e : Effect) : bool :=
  match e with
  | ClearInterval (JNum i) => i =? id
  | _ => false
  end.

(** Every release request in the trace comes right after the
    [clearInterval] of the interval [id]; [prev] tells whether the effect
    before the list was one. *)
Fixpoint cleared_before_release (id : Z) (prev : bool) (l : list Effect) : bool :=
  match l with
  | [] => true
  | e :: rest =>
      (if is_release e then prev else true)
      && cleared_before_release id (clears id e) rest
  end.

Definition is_validate_response (ev : Event) : bool :=
  match ev with
  | EvXhr cbValidate _ _ => true
  | _ => false
  end.

(** The player is disposed of from outside the plugin.  video.js tears the
    player down on dispose: a later [player.on] or [player.trigger] raises,
    so what the plugin does on a response is stated for the sessions in
    which no such event came before it. *)
Definition is_dispose (ev : Event) : bool :=
  match ev with EvDispose => true | _ => false end.

Definition is_shutdown (ev : Event) : bool :=
  match ev with
  | EvDispose | EvBeforeUnload => true
  | _ => false
  end.

(** The event object of the heartbeat. *)
Definition avplayerupdate (pid : JsVal) : JsVal :=
  JObj [("type", JStr "avplayerupdate"); ("playerID", pid)].

(** The event object of the block notification. *)
Definition avplayerbloked (code reason error : JsVal) : JsVal :=
  JObj [("type", JStr "avplayerbloked"); ("code", code);
        ("reason", reason); ("error", error)].

Definition default_reason : JsVal :=
  JStr "Has alcanzado la cantidad maxima de players activos.".

(** What a refused validation does to the player. *)
Definition refusal (error : JsVal) : list Effect :=
  [Log "concurrenceview: error";
   Log "concurrenceview: stop player - ";
   Trigger (avplayerbloked (JStr "cantplay") default_reason error);
   Pause;
   Dispose].

(** The effects of [blockPlayer], before those of the dispose listeners. *)
Definition block (code reason error : JsVal) : list Effect :=
  [Log "concurrenceview: stop player - ";
   Trigger (avplayerbloked code reason error);
   Pause;
   Dispose].

(** A response to the update request with body [body] and no transport
    error is treated as a tolerated failure: it counts as one more failure,
    and does not terminate the session while the counter is below the
    maximum. *)
Definition unparsable_is_tolerated (JSON_parse : string -> option JsVal)
           (w : World) (body : string) : Prop :=
  failedRequest (vars (world_of (step JSON_parse (EvXhr cbUpdate JNull body) w)))
  = failedRequest (vars w) + 1
  /\ (failedRequest (vars w) < maxUpdateFails (options (this w)) ->
      count is_blocked_event
            (effects_of (step JSON_parse (EvXhr cbUpdate JNull body) w)) = 0%nat).

(** The sample session: default options with the three urls, and the world
    it is in after the given events. *)
Definition sample_session (evs : list Event) : option World * list Effect :=
  session json_samples fresh_page one_half (urls no_options) evs.

Definition world_after (evs : list Event) : World :=
  match fst (sample_session evs) with
  | Some w => w
  | None => mkWorld (mkHost None 0 [] true 0%Q None [] []) (mkPlugin defaults false JUndefined)
                    undeclared
  end.

(** The sample session once validation is granted: the first update
    request is out. *)
Definition first_tick : World :=
  world_after [EvXhr cbValidate JNull body_granted].

(** Options that lack the update url and ask for a three second interval. *)
Definition bad_options : UserOptions :=
  mkUserOptions (Some 3) (Some (JStr "/access")) None (Some (JStr "/dispose"))
                None None None None.

(** ** Invariants of a session *)

(** Neither a request nor the start of an interval. *)
Definition is_calm (e : Effect) : bool :=
  negb (is_network e) && negb (is_setInterval e).

(** The effects a listener can have. *)
Definition listener_effect (e : Effect) : bool :=
  match e with
  | Log _ | ClearInterval _ | Throws _ => true
  | Xhr _ _ _ cb => cb_eqb cbDispose cb
  | _ => false
  end.

(** The part of the world no listener changes. *)
Record frame (w w' : World) : Prop := mkFrame {
  frame_listeners : listeners (host w') = listeners (host w);
  frame_interval_id : interval_id (host w') = interval_id (host w);
  frame_options : options (this w') = options (this w);
  frame_pendingRequest : pendingRequest (vars w') = pendingRequest (vars w);
  frame_failedRequest : failedRequest (vars w') = failedRequest (vars w);
  frame_updates : outstanding_updates w' = outstanding_updates w;
  frame_validate :
    existsb (cb_eqb cbValidate) (pending (host w'))
    = existsb (cb_eqb cbValidate) (pending (host w))
}.

Definition is_cleanUp (h : Handler) : bool :=
  match h with hCleanUp => true | _ => false end.

(** What running listeners does: [ran] tells whether cleanUp was among
    them.  The first cleanUp that finds the interval handle truthy clears the
    interval, drops the handle and sends the release; nothing else touches
    the handle. *)
Record listeners_ran (ran : bool) (w : World) (r : unit * World * list Effect)
  : Prop := mkRan {
  ran_frame : frame w (world_of r);
  ran_watchdog :
    watchdog (vars (world_of r))
    = if truthy (watchdog (vars w)) && ran then JBool false else watchdog (vars w);
  ran_release :
    count is_release (effects_of r)
    = if truthy (watchdog (vars w)) && ran then 1%nat else 0%nat;
  ran_timers :
    truthy (watchdog (vars w)) && ran = false ->
    timers (host (world_of r)) = timers (host w);
  ran_effects : forallb listener_effect (effects_of r) = true;
  ran_order :
    forall id,
      watchdog (vars w) = JNum id \/ truthy (watchdog (vars w)) = false ->
      cleared_before_release id false (effects_of r) = true
}.

Definition runs_cleanUp (ev : EventName) (ls : list (EventName * Handler)) : bool :=
  existsb (fun l => ev_eqb (fst l) ev && is_cleanUp (snd l)) ls.

Inductive Phase : Type :=
| Validating   (* the validate request is out *)
| Refused      (* validation failed; the plugin has nothing installed *)
| Armed        (* makeWatchdog has run, the interval handle is held *)
| Released.    (* cleanUp has dropped the handle *)

Definition released (ph : Phase) : nat :=
  match ph with Released => 1 | _ => 0 end.

Definition started (ph : Phase) : nat :=
  match ph with Armed | Released => 1 | _ => 0 end.

(** The in-flight flag counts the update requests without a response. *)
Definition flag_counts (w : World) : Prop :=
  outstanding_updates w = if pendingRequest (vars w) then 1%nat else 0%nat.

Definition phase_inv (ph : Phase) (w : World) : Prop :=
  match ph with
  | Validating =>
      pending (host w) = [cbValidate] /\ timers (host w) = []
      /\ listeners (host w) = [] /\ vars w = undeclared
  | Refused =>
      pending (host w) = [] /\ timers (host w) = []
      /\ listeners (host w) = [] /\ vars w = undeclared
  | Armed =>
      existsb (cb_eqb cbValidate) (pending (host w)) = false
      /\ flag_counts w
      /\ watchdog (vars w) = JNum (interval_id (host w))
      /\ runs_cleanUp ev_dispose (listeners (host w)) = true
      /\ runs_cleanUp ev_beforeunload (listeners (host w)) = true
  | Released =>
      existsb (cb_eqb cbValidate) (pending (host w)) = false
      /\ flag_counts w
      /\ watchdog (vars w) = JBool false
  end.

(** What one turn of the event loop may do, from phase [ph] to [ph'],
    issuing [n] update requests. *)
Record turn (ph : Phase) (w : World) (r : unit * World * list Effect)
       (ph' : Phase) (n : nat) : Prop := mkTurn {
  turn_inv : phase_inv ph' (world_of r);
  turn_release : (count is_release (effects_of r) + released ph = released ph')%nat;
  turn_start : (count is_setInterval (effects_of r) + started ph = started ph')%nat;
  turn_order :
    cleared_before_release (interval_id (host w)) false (effects_of r) = true;
  turn_updates : count (is_request cbUpdate) (effects_of r) = n;
  turn_interval_id : interval_id (host (world_of r)) = interval_id (host w)
}.

(** ** The listeners of makeWatchdog *)

(** What makeWatchdog registers, in its order. *)
Definition watchdog_listeners : list (EventName * Handler) :=
  [(ev_loadedmetadata, hLoaded);
   (ev_timeupdate, hTimeupdate);
   (ev_dispose, hCleanUp);
   (ev_beforeunload, hCleanUp)].

(** The listeners of a session: none before makeWatchdog has run, then
    those of makeWatchdog, after the one of recoverStatus when the validate
    response carried a position. *)
Definition installed (ls : list (EventName * Handler)) : Prop :=
  ls = watchdog_listeners
  \/ exists p, ls = (ev_loadedmetadata, hRecover p) :: watchdog_listeners.

(** The position a request reports. *)
Definition position_of (e : Effect) : JsVal :=
  match e with
  | Xhr _ data _ _ => prop data "position"
  | _ => JUndefined
  end.

(** The url each callback belongs to. *)
Definition url_for (o : Options) (cb : Callback) : JsVal :=
  match cb with
  | cbValidate => accessurl o
  | cbUpdate => updateurl o
  | cbDispose => disposeurl o
  end.

(** A request goes to the url of its callback, with the configured
    timeout. *)
Definition request_ok (o : Options) (e : Effect) : Prop :=
  match e with
  | Xhr url _ t cb => url = url_for o cb /\ t = requestTimeoutInMillis o
  | _ => True
  end.

(** The options of the plugin stay as they are, and every request in the
    effects goes to the url of its callback with the configured timeout. *)
Definition keeps_to_options (w : World) (r : unit * World * list Effect) : Prop :=
  options (this (world_of r)) = options (this w)
  /\ Forall (request_ok (options (this w))) (effects_of r).

(** ** The reported position *)

Definition is_loadedmetadata (ev : Event) : bool :=
  match ev with
  | EvLoadedMetadata => true
  | _ => false
  end.

(** The watchdog is installed, its loadedmetadata flag is still clear, and
    the position it would report is [s]. *)
Definition tracking (s : Z) (w : World) : Prop :=
  installed (listeners (host w))
  /\ existsb (cb_eqb cbValidate) (pending (host w)) = false
  /\ loadedmetadata (vars w) = false
  /\ lasTime (vars w) = s.

(** An update or release request reports position [s]. *)
Definition reports (s : Z) (e : Effect) : Prop :=
  match e with
  | Xhr _ _ _ cbValidate => True
  | Xhr _ data _ _ => prop data "position" = JNum s
  | _ => True
  end.

Definition holds_position (s : Z) (r : unit * World * list Effect) : Prop :=
  tracking s (world_of r) /\ Forall (reports s) (effects_of r).

(** The release request of cleanUp, as the closure stands. *)
Definition release_request (w : World) : Effect :=
  Xhr (disposeurl (options (this w)))
      (JObj [("player", playerID' (vars w));
             ("position", JNum (lasTime (vars w)));
             ("token", playerToken (vars w));
             ("status", JStr "paused")])
      (requestTimeoutInMillis (options (this w))) cbDispose.


(** ** The start of the watchdog *)

(** What recoverStatus does to the host when the response has a truthy
    position. *)
Definition recovered (ok : JsVal) : list Effect :=
  if truthy (prop ok "position") then
    [SetProp "player" "currentTime" (prop ok "position");
     On ev_loadedmetadata (hRecover (prop ok "position"))]
  else [].

Definition recover_listener (ok : JsVal) : list (EventName * Handler) :=
  if truthy (prop ok "position") then
    [(ev_loadedmetadata, hRecover (prop ok "position"))]
  else [].

(** The first update request: no token yet, the start position. *)
Definition first_update (o : Options) (is_paused : bool) : Effect :=
  Xhr (updateurl o)
      (JObj [("player", playerID o);
             ("token", JNull);
             ("position", JNum (if startPosition o =? 0 then 0 else startPosition o));
             ("status", JStr (if is_paused then "paused" else "playing"))])
      (requestTimeoutInMillis o) cbUpdate.

(** The effects of a granted validation, in order. *)
Definition startup (o : Options) (id : Z) (is_paused : bool) (ok : JsVal)
  : list Effect :=
  (recovered ok
   ++ [On ev_loadedmetadata hLoaded;
       On ev_timeupdate hTimeupdate;
       Log "concurrence plugin: ok";
       On ev_dispose hCleanUp;
       On ev_beforeunload hCleanUp;
       SetInterval (interval o * 1000) id;
       Trigger (avplayerupdate (playerID o));
       first_update o is_paused;
       Trigger (JObj [("type", JStr "avplayercanplay"); ("code", JNum 1)])])%list.

(** ** The watchdog between two heartbeats *)



(** The watchdog runs on the interval [id], has counted [k] failures, and
    waits for the response to an update request. *)
Definition awaiting_update (id k : Z) (w : World) : Prop :=
  id <> 0
  /\ installed (listeners (host w))
  /\ watchdog (vars w) = JNum id
  /\ timers (host w) = [id]
  /\ pendingRequest (vars w) = true
  /\ existsb (cb_eqb cbUpdate) (pending (host w)) = true
  /\ failedRequest (vars w) = k.

(** What cleanUp does when it finds the handle [id], with the state of
    [w]: the log line, the interval cleared, the release request. *)
Definition release_trace (id : Z) (w : World) : list Effect :=
  [Log "concurrenceview: DISPOSE"; ClearInterval (JNum id); release_request w].




(** * Properties *)

(** ** The monad *)

Lemma effects_bind {A B : Type} (m : Js A) (f : A -> Js B) (w : World) :
  effects_of (bind m f w)
  = (effects_of (m w) ++ effects_of (f (fst (fst (m w))) (world_of (m w))))%list.
Proof.
  unfold bind, effects_of, world_of.
  destruct (m w) as [[a w1] out1]. cbn. now destruct (f a w1) as [[b w2] out2].
Qed.

Lemma world_bind {A B : Type} (m : Js A) (f : A -> Js B) (w : World) :
  world_of (bind m f w) = world_of (f (fst (fst (m w))) (world_of (m w))).
Proof.
  unfold bind, effects_of, world_of.
  destruct (m w) as [[a w1] out1]. cbn. now destruct (f a w1) as [[b w2] out2].
Qed.

Lemma effects_seq {A B : Type} (m : Js A) (k : Js B) (w : World) :
  effects_of ((m ;; k) w) = (effects_of (m w) ++ effects_of (k (world_of (m w))))%list.
Proof. apply effects_bind. Qed.

Lemma world_seq {A B : Type} (m : Js A) (k : Js B) (w : World) :
  world_of ((m ;; k) w) = world_of (k (world_of (m w))).
Proof. apply world_bind. Qed.

Lemma count_app (p : Effect -> bool) (l1 l2 : list Effect) :
  count p (l1 ++ l2) = (count p l1 + count p l2)%nat.
Proof. unfold count. now rewrite filter_app, length_app. Qed.

Ltac js := unfold bind, ret, emit, read, on_host, on_this, on_vars, when,
             upd_host, upd_this, upd_vars, world_of, effects_of in *;
           cbn [fst snd app] in *.

(** Evaluation of the embedding, leaving arithmetic alone. *)
Ltac js_eval :=
  cbv [bind ret emit read on_host on_this on_vars upd_host upd_this upd_vars when
       for_each world_of effects_of fst snd app
       host this vars
       sessionStorage interval_id timers paused position currentTime_prop
       listeners pending
       options fistSent this_currentTime
       watchdog lasTime playerToken playerID' loadedmetadata pendingRequest
       failedRequest
       set_timers set_paused set_position set_currentTime_prop set_listeners
       set_pending set_fistSent set_this_currentTime set_watchdog set_lasTime
       set_playerToken set_playerID' set_loadedmetadata set_pendingRequest
       set_failedRequest
       truthy js_or prop lookup_field new_Error player
       String.eqb Ascii.eqb Bool.eqb andb orb negb
       ev_eqb cb_eqb remove_first existsb filter List.length
       player_on window_addEventListener player_setInterval player_clearInterval
       player_pause player_dispose
       makeRequest validatePlay cleanUp on_timeupdate run_handler fire blockPlayer
       recoverStatus wdf wdf_done makeWatchdog onPlayerReady_done validatePlay_done
       callback undeclared
       is_type is_update_event is_blocked_event is_request is_release is_network
       is_setInterval is_clearInterval count outstanding_updates
       cleared_before_release clears avplayerupdate avplayerbloked default_reason refusal
       is_cleanUp runs_cleanUp flag_counts phase_inv released started].

(** ** The heartbeat of [wdf] *)

(** C10.  Every call of [wdf], whether or not a request is in flight, emits
    the heartbeat event with the current player id exactly once, and emits
    it first: what follows is nothing when a request is pending (the tick is
    dropped) and the one update request otherwise. *)
Theorem wdf_emits_one_heartbeat_first (w : World) :
  exists rest,
    effects_of (wdf w) = Trigger (avplayerupdate (playerID' (vars w))) :: rest
    /\ count is_update_event (effects_of (wdf w)) = 1%nat
    /\ count is_update_event rest = 0%nat
    /\ count is_network rest = (if pendingRequest (vars w) then 0 else 1)%nat
    /\ List.length rest = (if pendingRequest (vars w) then 0 else 1)%nat.
Proof.
  unfold wdf, makeRequest, avplayerupdate. js.
  destruct (pendingRequest (vars w)); cbn; eexists; repeat split; reflexivity.
Qed.

(** ** The random identifier *)

Lemma pow2_divide (a b : nat) :
  (a <= b)%nat -> (2 ^ Z.of_nat a | 2 ^ Z.of_nat b).
Proof.
  intros Hab. exists (2 ^ Z.of_nat (b - a)).
  rewrite <- Z.pow_add_r by lia. f_equal. lia.
Qed.

(** In radix 32 every digit uses up five of the 53 bits. *)
Lemma fraction_digits_bound (m fuel : nat) (k : Z) :
  0 <= k < 2 ^ Z.of_nat 53 ->
  (2 ^ Z.of_nat (53 - 5 * m) | k) ->
  (List.length (fraction_digits fuel 32 k (2 ^ Z.of_nat 53)) <= m)%nat.
Proof.
  revert fuel k. induction m as [|m IH]; intros fuel k Hk Hdiv.
  - assert (k = 0) as ->.
    { destruct Hdiv as [q Hq]. rewrite Nat.mul_0_r, Nat.sub_0_r in Hq. nia. }
    destruct fuel; cbn; lia.
  - destruct fuel as [|fuel]; [cbn; lia|].
    cbn [fraction_digits]. destruct (k =? 0); [cbn; lia|].
    cbn [List.length]. apply le_n_S, IH.
    + apply Z.mod_pos_bound. lia.
    + rewrite Z.mod_eq by lia. apply Z.divide_sub_r.
      * apply Z.divide_trans with (2 ^ Z.of_nat (53 - 5 * S m) * 2 ^ Z.of_nat 5).
        -- rewrite <- Z.pow_add_r by lia.
           rewrite <- Nat2Z.inj_add. apply pow2_divide. lia.
        -- now apply Z.mul_divide_mono_r.
      * apply Z.divide_mul_l. apply pow2_divide. lia.
Qed.

Lemma length_string_of_list_ascii (l : list ascii) :
  String.length (string_of_list_ascii l) = List.length l.
Proof. induction l; cbn; congruence. Qed.

(** Whatever 53-bit number [Math.random()] returns, the token has at most
    eleven characters. *)
Lemma generateRandom_at_most_11 (k : Z) :
  0 <= k < 2 ^ 53 ->
  (String.length (generateRandom (mkDyadic k 53) None) <= 11)%nat.
Proof.
  intros Hk. unfold generateRandom, Number_toString. cbn [mant expo].
  destruct (k =? 0); [cbn; lia|].
  cbn [append substr].
  rewrite length_string_of_list_ascii, length_map.
  apply (fraction_digits_bound 11 53 k); [exact Hk|].
  apply Z.divide_1_l.
Qed.

(** C9.  The code at [Math.random() = 0.5]: [(len || 30) + 2 = 32] is the
    radix of [toString], not a length, and the token is the one base-32
    digit of one half; both kinds of id carry it. *)
Theorem generateRandom_one_half :
  generateRandom one_half None = "g"
  /\ String.length (generateRandom one_half None) = 1%nat
  /\ fst (generate one_half (Some []) defaults) = JStr "ssi-g"
  /\ fst (generate one_half None defaults) = JStr "rdm-g".
Proof. repeat split; reflexivity. Qed.

(** ** Configuration *)

Section Configuration.

Variable JSON_parse : string -> option JsVal.

(** C6.  When one of the three urls of the merged options is missing
    (or falsy in any other way), or the merged interval is falsy or below
    five, initialisation returns early: there is no plugin instance, and
    whatever the host does afterwards the trace holds no request and no
    interval, only the two log lines. *)
Theorem invalid_configuration_starts_nothing
        (pg : Page) (rnd : Dyadic) (u : UserOptions) (evs : list Event) :
  truthy (accessurl (mergeOptions defaults u)) = false
  \/ truthy (updateurl (mergeOptions defaults u)) = false
  \/ truthy (disposeurl (mergeOptions defaults u)) = false
  \/ interval (mergeOptions defaults u) = 0
  \/ interval (mergeOptions defaults u) < 5 ->
  fst (session JSON_parse pg rnd u evs) = None
  /\ count is_network (snd (session JSON_parse pg rnd u evs)) = 0%nat
  /\ count is_setInterval (snd (session JSON_parse pg rnd u evs)) = 0%nat
  /\ List.length (snd (session JSON_parse pg rnd u evs)) = 2%nat.
Proof.
  intros H. unfold session, concurrenceLimiter.
  destruct (negb (truthy (accessurl (mergeOptions defaults u)))
            || negb (truthy (updateurl (mergeOptions defaults u)))
            || negb (truthy (disposeurl (mergeOptions defaults u)))) eqn:Hurl.
  - repeat split; reflexivity.
  - destruct ((interval (mergeOptions defaults u) =? 0)
              || (interval (mergeOptions defaults u) <? 5)) eqn:Hint.
    + repeat split; reflexivity.
    + exfalso.
      apply orb_false_elim in Hurl as [Hurl Hd].
      apply orb_false_elim in Hurl as [Ha Hu].
      apply orb_false_elim in Hint as [H0 H5].
      apply negb_false_iff in Ha, Hu, Hd.
      apply Z.eqb_neq in H0. apply Z.ltb_ge in H5.
      destruct H as [H|[H|[H|[H|H]]]]; try congruence; lia.
Qed.

End Configuration.

(** ** Traces *)

Lemma cleared_before_release_weaken (id : Z) (l : list Effect) (b : bool) :
  cleared_before_release id false l = true -> cleared_before_release id b l = true.
Proof.
  destruct l as [|e rest]; [reflexivity|]. cbn.
  destruct (is_release e); [discriminate|]. now destruct b.
Qed.

Lemma cleared_before_release_app (id : Z) (l1 l2 : list Effect) (b : bool) :
  cleared_before_release id b l1 = true ->
  cleared_before_release id false l2 = true ->
  cleared_before_release id b (l1 ++ l2) = true.
Proof.
  revert b. induction l1 as [|e rest IH]; intros b H1 H2; cbn in *.
  - now apply cleared_before_release_weaken.
  - apply andb_true_iff in H1 as [He Hrest]. rewrite He. cbn. now apply IH.
Qed.

Lemma count_none (p q : Effect -> bool) (l : list Effect) :
  (forall e, q e = true -> p e = false) ->
  forallb q l = true -> count p l = 0%nat.
Proof.
  intros Hpq. induction l as [|e rest IH]; [reflexivity|]. cbn.
  intros H. apply andb_true_iff in H as [He Hrest].
  unfold count in *. cbn. rewrite (Hpq e He). now apply IH.
Qed.

Lemma no_release_cleared (id : Z) (l : list Effect) (b : bool) :
  forallb is_calm l = true -> cleared_before_release id b l = true.
Proof.
  revert b. induction l as [|e rest IH]; intros b H; [reflexivity|]. cbn in *.
  apply andb_true_iff in H as [He Hrest].
  assert (is_release e = false) as -> by now destruct e.
  cbn. now apply IH.
Qed.

Lemma listener_effect_not (p : Effect -> bool) (l : list Effect) :
  (forall e, listener_effect e = true -> p e = false) ->
  forallb listener_effect l = true -> count p l = 0%nat.
Proof. apply count_none. Qed.

(** ** What the listeners leave alone *)

Lemma frame_refl (w : World) : frame w w.
Proof. now constructor. Qed.

Lemma frame_trans (w1 w2 w3 : World) : frame w1 w2 -> frame w2 w3 -> frame w1 w3.
Proof.
  intros [] []. constructor; etransitivity; eassumption.
Qed.

Lemma cleanUp_ran (w : World) : listeners_ran true w (cleanUp w).
Proof.
  unfold cleanUp, player_clearInterval, makeRequest. js.
  destruct (truthy (watchdog (vars w))) eqn:Hwd; cbn.
  - constructor; cbn; try rewrite Hwd; try reflexivity; try discriminate.
    + constructor; cbn; try reflexivity.
      * unfold outstanding_updates. cbn. rewrite filter_app. cbn. now rewrite app_nil_r.
      * rewrite existsb_app. cbn. now rewrite orb_false_r.
    + intros id [Hid|Hid]; [|congruence].
      rewrite Hid. cbn. now rewrite Z.eqb_refl.
  - constructor; cbn; try rewrite Hwd; try reflexivity.
    apply frame_refl.
Qed.

(** A listener that only writes variables of its own. *)
Ltac quiet_listener :=
  constructor; cbn; rewrite ?andb_false_r; try reflexivity; now constructor.

Lemma run_handler_ran (h : Handler) (w : World) :
  listeners_ran (is_cleanUp h) w (run_handler h w).
Proof.
  destruct h; cbn [run_handler is_cleanUp]; [| | |apply cleanUp_ran].
  - js. quiet_listener.
  - js. quiet_listener.
  - unfold on_timeupdate. js.
    destruct (negb (loadedmetadata (vars w)) || negb (fistSent (this w))).
    + quiet_listener.
    + destruct (currentTime_prop (host w)); quiet_listener.
Qed.

Lemma nothing_ran (w : World) : listeners_ran false w (ret tt w).
Proof.
  constructor; cbn; rewrite ?andb_false_r; try reflexivity. apply frame_refl.
Qed.

Lemma listeners_ran_seq (ran1 ran2 : bool) (m1 m2 : Js unit) (w : World) :
  listeners_ran ran1 w (m1 w) ->
  (forall w1, listeners_ran ran2 w1 (m2 w1)) ->
  listeners_ran (ran1 || ran2) w ((m1 ;; m2) w).
Proof.
  intros H1 H2. specialize (H2 (world_of (m1 w))).
  destruct H1 as [F1 W1 R1 T1 E1 O1], H2 as [F2 W2 R2 T2 E2 O2].
  constructor; rewrite ?world_bind, ?effects_bind.
  - eapply frame_trans; eassumption.
  - rewrite W2, W1.
    destruct (truthy (watchdog (vars w))) eqn:Hwd, ran1, ran2; cbn;
      rewrite ?Hwd; reflexivity.
  - rewrite count_app, R1, R2, W1.
    destruct (truthy (watchdog (vars w))) eqn:Hwd, ran1, ran2; cbn;
      rewrite ?Hwd; reflexivity.
  - intros Hno.
    assert (truthy (watchdog (vars w)) && ran1 = false) as Hno1
      by (destruct (truthy (watchdog (vars w))), ran1; cbn in *; congruence).
    rewrite T2, T1; try assumption; try reflexivity.
    rewrite W1, Hno1.
    destruct (truthy (watchdog (vars w))), ran1, ran2; cbn in *; congruence.
  - rewrite forallb_app, E1, E2. reflexivity.
  - intros id Hid. apply cleared_before_release_app; [now apply O1|].
    apply O2. rewrite W1.
    destruct (truthy (watchdog (vars w)) && ran1); [now right|exact Hid].
Qed.

Lemma for_each_listener_ran (ev : EventName) (ls : list (EventName * Handler)) :
  forall w,
    listeners_ran (runs_cleanUp ev ls) w
      (for_each (fun l => when (ev_eqb (fst l) ev) (run_handler (snd l))) ls w).
Proof.
  induction ls as [|[e h] rest IH]; intros w.
  - apply nothing_ran.
  - cbn [for_each runs_cleanUp existsb fst snd].
    apply listeners_ran_seq; [|exact IH].
    destruct (ev_eqb e ev); cbn [when andb].
    + apply run_handler_ran.
    + apply nothing_ran.
Qed.

Lemma fire_ran (ev : EventName) (w : World) :
  listeners_ran (runs_cleanUp ev (listeners (host w))) w (fire ev w).
Proof.
  pose proof (for_each_listener_ran ev (listeners (host w)) w) as H.
  unfold fire, bind, read.
  destruct (for_each _ (listeners (host w)) w) as [[[] w'] out]. exact H.
Qed.

(** ** The termination path *)

(** [blockPlayer] written out: the log line, the block notification, the
    pause, the dispose, and then whatever the dispose listeners do. *)
Lemma blockPlayer_unfold (code error reason : JsVal) (w : World) :
  blockPlayer code error reason w
  = (tt,
     world_of (fire ev_dispose (upd_host (set_paused true) w)),
     Log "concurrenceview: stop player - "
     :: Trigger (avplayerbloked (js_or code (JStr "error"))
                                (js_or reason default_reason) error)
     :: Pause :: Dispose
     :: effects_of (fire ev_dispose (upd_host (set_paused true) w))).
Proof.
  unfold blockPlayer, player_pause, player_dispose, bind, emit, on_host,
    world_of, effects_of.
  destruct (fire ev_dispose (upd_host (set_paused true) w)) as [[[] w'] out].
  reflexivity.
Qed.

(** ** The update callback, case by case *)

Lemma wdf_done_tolerated (error response : JsVal) (w : World) :
  truthy error = true ->
  (maxUpdateFails (options (this w)) <=? failedRequest (vars w)) = false ->
  wdf_done error response w
  = (tt,
     upd_vars (fun c => set_failedRequest (failedRequest c + 1)
                          (set_pendingRequest false c)) w,
     []).
Proof.
  intros He Hmax. unfold wdf_done. rewrite He. js. cbn. rewrite Hmax. reflexivity.
Qed.

Lemma wdf_done_exhausted (error response : JsVal) (w : World) :
  truthy error = true ->
  (maxUpdateFails (options (this w)) <=? failedRequest (vars w)) = true ->
  wdf_done error response w
  = (tt,
     upd_vars (fun c => set_failedRequest (failedRequest c + 1) c)
       (world_of (blockPlayer player (JStr "authapifail") (JObj [("msg", error)])
                    (upd_vars (set_pendingRequest false) w))),
     Log "concurrenceview: update api error"
     :: effects_of (blockPlayer player (JStr "authapifail") (JObj [("msg", error)])
                      (upd_vars (set_pendingRequest false) w))).
Proof.
  intros He Hmax. unfold wdf_done. rewrite He.
  unfold bind, read, on_vars, when, emit.
  cbn [upd_vars vars this host set_pendingRequest failedRequest options].
  rewrite Hmax. cbn -[blockPlayer].
  destruct (blockPlayer _ _ _ _) as [[[] w'] out]. cbn.
  now rewrite app_nil_r.
Qed.

Lemma wdf_done_granted (error response : JsVal) (w : World) :
  truthy error = false ->
  truthy response && truthy (prop response "success") = true ->
  wdf_done error response w
  = (tt,
     upd_vars (fun c =>
       set_playerToken (js_or (prop response "token") (playerToken c))
         (set_playerID' (js_or (prop response "player") (playerID' c))
            (set_failedRequest 0 (set_pendingRequest false c)))) w,
     []).
Proof.
  intros He Hok. unfold wdf_done. rewrite He, Hok. reflexivity.
Qed.

Lemma wdf_done_denied (error response : JsVal) (w : World) :
  truthy error = false ->
  truthy response && truthy (prop response "success") = false ->
  wdf_done error response w
  = (tt,
     world_of (blockPlayer player (JStr "noauth") response
                 (upd_vars (fun c => set_failedRequest 0 (set_pendingRequest false c)) w)),
     Log "Error: Player Auth error"
     :: effects_of (blockPlayer player (JStr "noauth") response
                      (upd_vars (fun c => set_failedRequest 0 (set_pendingRequest false c)) w))).
Proof.
  intros He Hok. unfold wdf_done. rewrite He, Hok.
  unfold bind, read, on_vars, when, emit. cbn -[blockPlayer].
  now destruct (blockPlayer _ _ _ _) as [[[] w'] out].
Qed.

(** ** The phases of a session *)

Lemma phase_flag (ph : Phase) (w : World) : phase_inv ph w -> flag_counts w.
Proof.
  destruct ph; cbn; intros H.
  - destruct H as (Hp & _ & _ & Hv). unfold flag_counts, outstanding_updates.
    now rewrite Hp, Hv.
  - destruct H as (Hp & _ & _ & Hv). unfold flag_counts, outstanding_updates.
    now rewrite Hp, Hv.
  - tauto.
  - tauto.
Qed.

Lemma existsb_remove_first (a b : Callback) (l : list Callback) :
  existsb (cb_eqb a) l = false -> existsb (cb_eqb a) (remove_first b l) = false.
Proof.
  induction l as [|x rest IH]; [reflexivity|]. cbn. intros H.
  apply orb_false_elim in H as [Hx Hrest].
  destruct (cb_eqb b x); [assumption|]. cbn. now rewrite Hx, IH.
Qed.

Lemma filter_remove_first_dispose (l : list Callback) :
  filter (cb_eqb cbUpdate) (remove_first cbDispose l) = filter (cb_eqb cbUpdate) l.
Proof.
  induction l as [|x rest IH]; [reflexivity|].
  destruct x; cbn; rewrite ?IH; reflexivity.
Qed.

Lemma filter_remove_first_update (l : list Callback) :
  existsb (cb_eqb cbUpdate) l = true ->
  S (List.length (filter (cb_eqb cbUpdate) (remove_first cbUpdate l)))
  = List.length (filter (cb_eqb cbUpdate) l).
Proof.
  induction l as [|x rest IH]; [discriminate|].
  destruct x; cbn; intros H; try reflexivity; now apply IH.
Qed.

(** After listeners have run in an armed or released session. *)
Lemma turn_after_listeners (ph : Phase) (ran : bool) (w : World)
      (r : unit * World * list Effect) :
  ph = Armed \/ ph = Released ->
  phase_inv ph w ->
  listeners_ran ran w r ->
  turn ph w r (if truthy (watchdog (vars w)) && ran then Released else ph) 0.
Proof.
  intros Hph Hinv [F W R T E O].
  destruct F as [Fl Fi Fo Fp Ff Fu Fv].
  assert (flag_counts (world_of r)) as Hflag.
  { unfold flag_counts. rewrite Fu, Fp. now apply (phase_flag ph). }
  assert (existsb (cb_eqb cbValidate) (pending (host (world_of r))) = false) as Hval.
  { rewrite Fv. destruct Hph; subst ph; cbn in Hinv; tauto. }
  constructor.
  - destruct Hph; subst ph; cbn in Hinv.
    + destruct Hinv as (_ & _ & Hwd & Hd & Hu).
      destruct (truthy (watchdog (vars w)) && ran) eqn:Hran; cbn.
      * repeat split; assumption.
      * rewrite Fl, Fi, W. repeat split; assumption.
    + destruct Hinv as (_ & _ & Hwd). rewrite Hwd in *. cbn in *.
      repeat split; assumption.
  - rewrite R. destruct Hph; subst ph; cbn in Hinv.
    + now destruct (truthy (watchdog (vars w)) && ran).
    + destruct Hinv as (_ & _ & Hwd). rewrite Hwd. reflexivity.
  - rewrite (listener_effect_not is_setInterval _) by (try assumption; now intros []).
    destruct Hph; subst ph; cbn in Hinv.
    + now destruct (truthy (watchdog (vars w)) && ran).
    + destruct Hinv as (_ & _ & Hwd). rewrite Hwd. reflexivity.
  - apply O. destruct Hph; subst ph; cbn in Hinv.
    + left. tauto.
    + right. destruct Hinv as (_ & _ & ->). reflexivity.
  - apply listener_effect_not; [|assumption].
    intros [] He; try reflexivity; cbn in *; now destruct cb.
  - assumption.
Qed.

Lemma phase_inv_same (ph : Phase) (w w' : World) :
  ph = Armed \/ ph = Released ->
  phase_inv ph w ->
  existsb (cb_eqb cbValidate) (pending (host w')) = false ->
  flag_counts w' ->
  watchdog (vars w') = watchdog (vars w) ->
  interval_id (host w') = interval_id (host w) ->
  listeners (host w') = listeners (host w) ->
  phase_inv ph w'.
Proof.
  intros [->| ->] Hinv Hv Hf Hw Hi Hl; cbn in *.
  - rewrite Hw, Hi, Hl. tauto.
  - rewrite Hw. tauto.
Qed.

(** Effects put in front of a turn, none of them a request or an interval. *)
Lemma turn_prepend (ph ph' : Phase) (n : nat) (w w1 : World) (pre : list Effect)
      (r : unit * World * list Effect) :
  turn ph w1 r ph' n ->
  interval_id (host w1) = interval_id (host w) ->
  forallb is_calm pre = true ->
  turn ph w (tt, world_of r, (pre ++ effects_of r)%list) ph' n.
Proof.
  intros [I R S O U D] Hid Hpre.
  assert (forall p, (forall e, is_calm e = true
                               -> p e = false) -> count p pre = 0%nat) as Hnone.
  { intros p Hp.
    apply (count_none p is_calm);
      [exact Hp|exact Hpre]. }
  constructor; unfold effects_of, world_of in *; cbn [fst snd].
  - assumption.
  - rewrite count_app, Hnone; [assumption|]. now intros [].
  - rewrite count_app, Hnone; [assumption|]. now intros [].
  - apply cleared_before_release_app; [|now rewrite <- Hid].
    now apply no_release_cleared.
  - rewrite count_app, Hnone; [assumption|]. now intros [].
  - congruence.
Qed.

(** The world changed after a turn in a way the phase does not see. *)
Lemma turn_then (ph ph' : Phase) (n : nat) (w w' : World)
      (r : unit * World * list Effect) :
  turn ph w r ph' n ->
  phase_inv ph' w' ->
  interval_id (host w') = interval_id (host (world_of r)) ->
  turn ph w (tt, w', effects_of r) ph' n.
Proof.
  intros [I R S O U D] Hinv Hid. constructor; try assumption.
  unfold world_of in *. cbn [fst snd]. congruence.
Qed.


Lemma turn_blockPlayer (ph : Phase) (code error reason : JsVal) (w : World) :
  ph = Armed \/ ph = Released ->
  phase_inv ph w ->
  turn ph w (blockPlayer code error reason w)
       (if truthy (watchdog (vars w)) then Released else ph) 0.
Proof.
  intros Hph Hinv. rewrite blockPlayer_unfold.
  pose proof (fire_ran ev_dispose (upd_host (set_paused true) w)) as Hran.
  assert (phase_inv ph (upd_host (set_paused true) w)) as Hinv'.
  { apply (phase_inv_same ph w); try assumption; try reflexivity.
    - destruct Hph; subst ph; cbn in *; tauto.
    - apply (phase_flag ph w Hinv). }
  pose proof (turn_after_listeners ph _ _ _ Hph Hinv' Hran) as Hturn.
  cbn [upd_host vars host listeners set_paused] in Hturn.
  assert (runs_cleanUp ev_dispose (listeners (host w)) = true
          \/ truthy (watchdog (vars w)) = false) as Hc.
  { destruct Hph; subst ph; cbn in Hinv.
    - tauto.
    - right. destruct Hinv as (_ & _ & ->). reflexivity. }
  replace (truthy (watchdog (vars w)) && runs_cleanUp ev_dispose (listeners (host w)))
    with (truthy (watchdog (vars w))) in Hturn
    by (destruct Hc as [-> | ->]; [now rewrite andb_true_r|reflexivity]).
  change (Log "concurrenceview: stop player - "
          :: Trigger (avplayerbloked (js_or code (JStr "error"))
                                     (js_or reason default_reason) error)
          :: Pause :: Dispose
          :: effects_of (fire ev_dispose (upd_host (set_paused true) w)))
    with ([Log "concurrenceview: stop player - ";
           Trigger (avplayerbloked (js_or code (JStr "error"))
                                   (js_or reason default_reason) error);
           Pause; Dispose]
          ++ effects_of (fire ev_dispose (upd_host (set_paused true) w)))%list.
  eapply turn_prepend; [exact Hturn|reflexivity|reflexivity].
Qed.

(** ** The tick, case by case *)

Lemma wdf_dropped (w : World) :
  pendingRequest (vars w) = true ->
  wdf w = (tt, w, [Trigger (avplayerupdate (playerID' (vars w)))]).
Proof. intros Hp. unfold wdf. js. now rewrite Hp. Qed.

Lemma wdf_issued (w : World) :
  pendingRequest (vars w) = false ->
  wdf w
  = (tt,
     upd_host (fun h => set_pending (pending h ++ [cbUpdate]) h)
       (upd_vars (set_pendingRequest true) w),
     [Trigger (avplayerupdate (playerID' (vars w)));
      Xhr (updateurl (options (this w)))
          (JObj [("player", playerID' (vars w));
                 ("token", playerToken (vars w));
                 ("position", JNum (lasTime (vars w)));
                 ("status", JStr (if paused (host w) then "paused" else "playing"))])
          (requestTimeoutInMillis (options (this w))) cbUpdate]).
Proof. intros Hp. unfold wdf, makeRequest. js. now rewrite Hp. Qed.

Lemma turn_nothing (ph : Phase) (w : World) :
  phase_inv ph w -> turn ph w (tt, w, []) ph 0.
Proof. intros H. constructor; cbn; try reflexivity; try assumption; lia. Qed.

Lemma turn_silent (ph : Phase) (w w' : World) :
  phase_inv ph w' ->
  interval_id (host w') = interval_id (host w) ->
  turn ph w (tt, w', []) ph 0.
Proof. intros H Hid. constructor; cbn; try reflexivity; try assumption; lia. Qed.

(** A change of the closure variables that keeps the flag and the handle. *)
Lemma phase_inv_vars (ph : Phase) (f : Closure -> Closure) (w : World) :
  ph = Armed \/ ph = Released ->
  phase_inv ph w ->
  pendingRequest (f (vars w)) = pendingRequest (vars w) ->
  watchdog (f (vars w)) = watchdog (vars w) ->
  phase_inv ph (upd_vars f w).
Proof.
  intros Hph Hinv Hf Hw.
  apply (phase_inv_same ph w); try assumption; try reflexivity.
  - destruct Hph; subst ph; cbn in Hinv; tauto.
  - pose proof (phase_flag ph w Hinv) as Hflag.
    unfold flag_counts, outstanding_updates in *. cbn. now rewrite Hf.
Qed.

Lemma turn_wdf (ph : Phase) (w : World) :
  ph = Armed \/ ph = Released ->
  phase_inv ph w ->
  turn ph w (wdf w) ph (if pendingRequest (vars w) then 0 else 1).
Proof.
  intros Hph Hinv. pose proof (phase_flag ph w Hinv) as Hf. unfold flag_counts in Hf.
  destruct (pendingRequest (vars w)) eqn:Hp.
  - rewrite wdf_dropped by assumption.
    constructor; cbn; try reflexivity; try assumption.
  - rewrite wdf_issued by assumption.
    constructor; cbn; try reflexivity.
    apply (phase_inv_same ph w); try assumption; try reflexivity.
    + cbn. rewrite existsb_app. cbn.
      destruct Hph; subst ph; cbn in Hinv; destruct Hinv as (-> & _); reflexivity.
    + unfold flag_counts, outstanding_updates in *. cbn.
      rewrite filter_app, length_app, Hf. reflexivity.
Qed.

Section Running.

Variable JSON_parse : string -> option JsVal.

Lemma step_xhr (cb : Callback) (err : JsVal) (body : string) (w : World) :
  step JSON_parse (EvXhr cb err body) w
  = if existsb (cb_eqb cb) (pending (host w)) then
      callback cb (fst (makeRequest_done JSON_parse err body))
                  (snd (makeRequest_done JSON_parse err body))
               (upd_host (set_pending (remove_first cb (pending (host w)))) w)
    else (tt, w, []).
Proof.
  unfold step, bind, read, on_host.
  destruct (existsb (cb_eqb cb) (pending (host w))); [|reflexivity].
  now destruct (callback _ _ _ _) as [[[] w'] out].
Qed.

Lemma step_timeupdate (cur : Q) (w : World) :
  step JSON_parse (EvTimeUpdate cur) w
  = fire ev_timeupdate (upd_host (set_position cur) w).
Proof.
  unfold step, bind, on_host.
  now destruct (fire _ _) as [[[] w'] out].
Qed.

(** The update callback in an armed or released session; the request it
    answers is off the list, so the invariant holds once the callback has
    cleared the flag. *)
Lemma turn_wdf_done (ph : Phase) (error response : JsVal) (w : World) :
  ph = Armed \/ ph = Released ->
  phase_inv ph (upd_vars (set_pendingRequest false) w) ->
  exists ph',
    turn ph w (wdf_done error response w) ph' 0
    /\ (ph' = ph \/ ph' = Released).
Proof.
  intros Hph Hinv.
  set (w2 := upd_vars (set_pendingRequest false) w) in *.
  set (ph1 := if truthy (watchdog (vars w)) then Released else ph).
  assert (ph1 = Armed \/ ph1 = Released) as Hph1
    by (subst ph1; destruct (truthy (watchdog (vars w))); tauto).
  assert (ph1 = ph \/ ph1 = Released) as Hmono
    by (subst ph1; destruct (truthy (watchdog (vars w))); tauto).
  destruct (truthy error) eqn:He.
  - destruct (maxUpdateFails (options (this w)) <=? failedRequest (vars w)) eqn:Hmax.
    + rewrite wdf_done_exhausted by assumption.
      exists ph1. split; [|exact Hmono].
      pose proof (turn_blockPlayer ph player (JStr "authapifail")
                    (JObj [("msg", error)]) w2 Hph Hinv) as Hturn.
      change (if truthy (watchdog (vars w2)) then Released else ph) with ph1 in Hturn.
      fold w2.
      set (B := blockPlayer player (JStr "authapifail") (JObj [("msg", error)]) w2) in *.
      pose proof (turn_prepend ph ph1 0 w w2 [Log "concurrenceview: update api error"]
                    B Hturn eq_refl eq_refl) as Hpre.
      refine (turn_then ph ph1 0 w
                (upd_vars (fun c => set_failedRequest (failedRequest c + 1) c)
                          (world_of B)) _ Hpre _ eq_refl).
      apply phase_inv_vars; try assumption; try reflexivity.
      exact (turn_inv _ _ _ _ _ Hturn).
    + rewrite wdf_done_tolerated by assumption.
      exists ph. split; [|now left].
      apply turn_silent; [|reflexivity].
      change (phase_inv ph
                (upd_vars (fun c => set_failedRequest (failedRequest c + 1) c) w2)).
      now apply phase_inv_vars.
  - destruct (truthy response && truthy (prop response "success")) eqn:Hok.
    + rewrite wdf_done_granted by assumption.
      exists ph. split; [|now left].
      apply turn_silent; [|reflexivity].
      change (phase_inv ph
                (upd_vars (fun c =>
                   set_playerToken (js_or (prop response "token") (playerToken c))
                     (set_playerID' (js_or (prop response "player") (playerID' c))
                        (set_failedRequest 0 c))) w2)).
      now apply phase_inv_vars.
    + rewrite wdf_done_denied by assumption.
      exists ph1. split; [|exact Hmono].
      set (w3 := upd_vars (fun c => set_failedRequest 0 (set_pendingRequest false c)) w).
      assert (phase_inv ph w3) as Hinv3.
      { change (phase_inv ph (upd_vars (set_failedRequest 0) w2)).
        now apply phase_inv_vars. }
      pose proof (turn_blockPlayer ph player (JStr "noauth") response w3 Hph Hinv3)
        as Hturn.
      change (if truthy (watchdog (vars w3)) then Released else ph) with ph1 in Hturn.
      exact (turn_prepend ph ph1 0 w w3 [Log "Error: Player Auth error"] _
               Hturn eq_refl eq_refl).
Qed.

Lemma step_tick (w : World) :
  step JSON_parse EvTick w
  = match timers (host w) with
    | [] => (tt, w, [])
    | _ :: _ => wdf w
    end.
Proof.
  unfold step, bind, read.
  destruct (timers (host w)); [reflexivity|].
  now destruct (wdf w) as [[[] w'] out].
Qed.

Lemma turn_base (ph ph' : Phase) (n : nat) (w w1 : World)
      (r : unit * World * list Effect) :
  turn ph w1 r ph' n ->
  interval_id (host w1) = interval_id (host w) ->
  turn ph w r ph' n.
Proof.
  intros [I R S O U D] Hid. constructor; try assumption; congruence.
Qed.

(** One turn of the event loop once makeWatchdog has run. *)
Lemma turn_running (ph : Phase) (ev : Event) (w : World) :
  ph = Armed \/ ph = Released ->
  phase_inv ph w ->
  exists ph' n,
    turn ph w (step JSON_parse ev w) ph' n
    /\ (ph' = ph \/ ph' = Released)
    /\ (n + outstanding_updates w <= 1)%nat
    /\ (is_shutdown ev = true -> truthy (watchdog (vars w)) = true ->
        ph' = Released).
Proof.
  intros Hph Hinv.
  pose proof (phase_flag ph w Hinv) as Hflag.
  assert (existsb (cb_eqb cbValidate) (pending (host w)) = false) as Hval
    by (destruct Hph; subst ph; cbn in Hinv; tauto).
  assert (0 + outstanding_updates w <= 1)%nat as Hle
    by (rewrite Hflag; destruct (pendingRequest (vars w)); cbn; lia).
  assert (forall ran,
             (is_shutdown ev = true -> truthy (watchdog (vars w)) = true ->
              ran = true) ->
             forall r, listeners_ran ran w r ->
             exists ph' n,
               turn ph w r ph' n /\ (ph' = ph \/ ph' = Released)
               /\ (n + outstanding_updates w <= 1)%nat
               /\ (is_shutdown ev = true -> truthy (watchdog (vars w)) = true ->
                   ph' = Released)) as Hfire.
  { intros ran Hran r Hr.
    exists (if truthy (watchdog (vars w)) && ran then Released else ph), 0%nat.
    split; [now apply turn_after_listeners|].
    split; [destruct (truthy (watchdog (vars w)) && ran); tauto|].
    split; [exact Hle|].
    intros Hs Ht. now rewrite Ht, (Hran Hs Ht). }
  assert (forall ph' n r,
             turn ph w r ph' n -> ph' = ph \/ ph' = Released ->
             (n + outstanding_updates w <= 1)%nat ->
             is_shutdown ev = false ->
             exists ph' n,
               turn ph w r ph' n /\ (ph' = ph \/ ph' = Released)
               /\ (n + outstanding_updates w <= 1)%nat
               /\ (is_shutdown ev = true -> truthy (watchdog (vars w)) = true ->
                   ph' = Released)) as Hstay.
  { intros ph' n r Hturn Hmono Hn Hs. exists ph', n.
    split; [exact Hturn|]. split; [exact Hmono|]. split; [exact Hn|].
    intros Hs'. congruence. }
  destruct ev.
  - (* a response *)
    rewrite step_xhr. destruct (existsb (cb_eqb cb) (pending (host w))) eqn:Hin.
    2:{ apply (Hstay ph 0%nat); auto. now apply turn_nothing. }
    destruct cb; cbn [callback].
    + congruence.
    + set (w1 := upd_host (set_pending (remove_first cbUpdate (pending (host w)))) w).
      assert (phase_inv ph (upd_vars (set_pendingRequest false) w1)) as Hinv1.
      { apply (phase_inv_same ph w); try assumption; try reflexivity.
        - cbn. now apply existsb_remove_first.
        - pose proof (filter_remove_first_update _ Hin) as Hlen.
          unfold flag_counts, outstanding_updates in *. cbn.
          rewrite Hflag in Hlen. destruct (pendingRequest (vars w)); lia. }
      destruct (turn_wdf_done ph (fst (makeRequest_done JSON_parse err body))
                  (snd (makeRequest_done JSON_parse err body)) w1 Hph Hinv1)
        as (ph' & Hturn & Hmono).
      apply (Hstay ph' 0%nat); auto.
      exact (turn_base ph ph' 0 w w1 _ Hturn eq_refl).
    + apply (Hstay ph 0%nat); auto.
      apply turn_silent; [|reflexivity].
      apply (phase_inv_same ph w); try assumption; try reflexivity.
      * cbn. now apply existsb_remove_first.
      * unfold flag_counts, outstanding_updates in *. cbn.
        now rewrite filter_remove_first_dispose.
  - (* a tick *)
    rewrite step_tick. destruct (timers (host w)).
    + apply (Hstay ph 0%nat); auto. now apply turn_nothing.
    + apply (Hstay ph (if pendingRequest (vars w) then 0%nat else 1%nat)); auto.
      * now apply turn_wdf.
      * rewrite Hflag. destruct (pendingRequest (vars w)); cbn; lia.
  - apply (Hfire (runs_cleanUp ev_loadedmetadata (listeners (host w))));
      [discriminate|apply fire_ran].
  - rewrite step_timeupdate.
    set (w1 := upd_host (set_position cur) w).
    pose proof (fire_ran ev_timeupdate w1) as Hr.
    assert (phase_inv ph w1) as Hinv1
      by (apply (phase_inv_same ph w); try assumption; reflexivity).
    apply (Hstay (if truthy (watchdog (vars w))
                     && runs_cleanUp ev_timeupdate (listeners (host w))
                  then Released else ph) 0%nat); auto.
    + apply (turn_base _ _ _ w w1); [|reflexivity].
      exact (turn_after_listeners ph _ w1 _ Hph Hinv1 Hr).
    + destruct (truthy (watchdog (vars w))
                && runs_cleanUp ev_timeupdate (listeners (host w))); tauto.
  - apply (Hfire (runs_cleanUp ev_dispose (listeners (host w))));
      [|apply fire_ran].
    intros _ Ht. destruct Hph; subst ph; cbn in Hinv.
    + tauto.
    + destruct Hinv as (_ & _ & Hwd). rewrite Hwd in Ht. discriminate.
  - apply (Hfire (runs_cleanUp ev_beforeunload (listeners (host w))));
      [|apply fire_ran].
    intros _ Ht. destruct Hph; subst ph; cbn in Hinv.
    + tauto.
    + destruct Hinv as (_ & _ & Hwd). rewrite Hwd in Ht. discriminate.
  - apply (Hstay ph 0%nat); auto.
    apply turn_silent; [|reflexivity].
    apply (phase_inv_same ph w); try assumption; reflexivity.
  - apply (Hstay ph 0%nat); auto.
    apply turn_silent; [|reflexivity].
    apply (phase_inv_same ph w); try assumption; reflexivity.
Qed.

(** *** Before and after a refused validation *)

Lemma makeRequest_done_error (err : JsVal) (body : string) :
  truthy (fst (makeRequest_done JSON_parse err body)) = truthy err.
Proof.
  unfold makeRequest_done. cbn [fst]. destruct (truthy err) eqn:He; [|reflexivity].
  unfold js_or. now destruct (truthy (prop err "message")) eqn:Hm.
Qed.

Lemma truthy_prop (v : JsVal) (k : string) :
  truthy (prop v k) = true -> truthy v = true.
Proof. destruct v; cbn; try discriminate; reflexivity. Qed.

(** While the validate request is out, nothing but its response makes the
    plugin do anything. *)
Lemma validating_waits (ev : Event) (w : World) :
  phase_inv Validating w ->
  is_validate_response ev = false ->
  phase_inv Validating (world_of (step JSON_parse ev w))
  /\ effects_of (step JSON_parse ev w) = []
  /\ this (world_of (step JSON_parse ev w)) = this w
  /\ interval_id (host (world_of (step JSON_parse ev w))) = interval_id (host w).
Proof.
  destruct w as [[st id tm pa po ct ls pe] pl c]. cbn.
  intros (-> & -> & -> & ->) Hev.
  destruct ev as [[] err body| | | | | | |]; try discriminate Hev; cbn; tauto.
Qed.

(** After a refused validation the plugin has nothing installed, and no
    event makes it do anything. *)
Lemma refused_idle (ev : Event) (w : World) :
  phase_inv Refused w ->
  phase_inv Refused (world_of (step JSON_parse ev w))
  /\ effects_of (step JSON_parse ev w) = []
  /\ interval_id (host (world_of (step JSON_parse ev w))) = interval_id (host w).
Proof.
  destruct w as [[st id tm pa po ct ls pe] pl c]. cbn.
  intros (-> & -> & -> & ->).
  destruct ev as [[] err body| | | | | | |]; cbn; tauto.
Qed.

Lemma refused_run (evs : list Event) :
  forall w,
    phase_inv Refused w ->
    phase_inv Refused (world_of (run JSON_parse evs w))
    /\ effects_of (run JSON_parse evs w) = [].
Proof.
  induction evs as [|ev rest IH]; intros w Hinv; [now split|].
  unfold run in *. cbn [for_each].
  destruct (refused_idle ev w Hinv) as (Hinv1 & Hout1 & _).
  destruct (IH _ Hinv1) as (Hinv2 & Hout2).
  rewrite world_seq, effects_seq, Hout1, Hout2. now split.
Qed.

Lemma validating_run (evs : list Event) :
  forall w,
    phase_inv Validating w ->
    forallb (fun ev => negb (is_validate_response ev)) evs = true ->
    phase_inv Validating (world_of (run JSON_parse evs w))
    /\ effects_of (run JSON_parse evs w) = []
    /\ this (world_of (run JSON_parse evs w)) = this w
    /\ interval_id (host (world_of (run JSON_parse evs w))) = interval_id (host w).
Proof.
  induction evs as [|ev rest IH]; intros w Hinv Hevs;
    [split; [exact Hinv|now repeat split]|].
  cbn in Hevs. apply andb_true_iff in Hevs as [Hev Hrest].
  apply negb_true_iff in Hev.
  unfold run in *. cbn [for_each].
  destruct (validating_waits ev w Hinv Hev) as (Hinv1 & Hout1 & Hthis1 & Hid1).
  destruct (IH _ Hinv1 Hrest) as (Hinv2 & Hout2 & Hthis2 & Hid2).
  rewrite world_seq, effects_seq, Hout1, Hout2.
  split; [exact Hinv2|]. split; [reflexivity|]. split; congruence.
Qed.

(** *** The validate response *)

Lemma validate_refused (err : JsVal) (body : string) (w : World) :
  phase_inv Validating w ->
  truthy err = true
  \/ truthy (prop (snd (makeRequest_done JSON_parse err body)) "success") = false ->
  phase_inv Refused (world_of (step JSON_parse (EvXhr cbValidate err body) w))
  /\ effects_of (step JSON_parse (EvXhr cbValidate err body) w)
     = (if truthy err then
          Log "concurrenceview: canplay api error"
          :: refusal (new_Error (fst (makeRequest_done JSON_parse err body)))
        else refusal (new_Error (JStr "Player Auth error")))
  /\ interval_id (host (world_of (step JSON_parse (EvXhr cbValidate err body) w)))
     = interval_id (host w).
Proof.
  intros Hinv Hfail. rewrite step_xhr.
  pose proof (makeRequest_done_error err body) as Herr.
  destruct (makeRequest_done JSON_parse err body) as [error ok]. cbn [fst snd] in *.
  destruct w as [[st id tm pa po ct ls pe] pl c]. cbn in Hinv.
  destruct Hinv as (-> & -> & -> & ->). cbn [existsb cb_eqb orb host pending callback].
  unfold validatePlay_done. rewrite Herr.
  destruct (truthy err) eqn:He.
  - js_eval. tauto.
  - destruct Hfail as [Hfail|Hfail]; [discriminate|].
    rewrite Hfail, andb_false_r. js_eval. tauto.
Qed.

Lemma validate_granted (err : JsVal) (body : string) (w : World) :
  phase_inv Validating w ->
  truthy err = false ->
  truthy (prop (snd (makeRequest_done JSON_parse err body)) "success") = true ->
  turn Validating w (step JSON_parse (EvXhr cbValidate err body) w) Armed 1
  /\ timers (host (world_of (step JSON_parse (EvXhr cbValidate err body) w)))
     = [interval_id (host w)].
Proof.
  intros Hinv He Hok. rewrite step_xhr.
  pose proof (makeRequest_done_error err body) as Herr.
  pose proof (truthy_prop _ _ Hok) as Htr.
  destruct (makeRequest_done JSON_parse err body) as [error ok]. cbn [fst snd] in *.
  destruct w as [[st id tm pa po ct ls pe] pl c]. cbn in Hinv.
  destruct Hinv as (-> & -> & -> & ->). cbn [existsb cb_eqb orb host pending callback].
  unfold validatePlay_done. rewrite Herr, He, Htr, Hok. cbn [andb].
  unfold onPlayerReady_done. cbn [truthy]. unfold recoverStatus.
  destruct (truthy (prop ok "position")); js_eval.
  - split; [|reflexivity]. constructor; js_eval; try reflexivity. repeat split.
  - split; [|reflexivity]. constructor; js_eval; try reflexivity. repeat split.
Qed.

(** *** Any turn, any run *)

Lemma turn_quiet (ph ph' : Phase) (w : World) (r : unit * World * list Effect) :
  phase_inv ph' (world_of r) ->
  forallb is_calm (effects_of r)
  = true ->
  released ph = released ph' ->
  started ph = started ph' ->
  interval_id (host (world_of r)) = interval_id (host w) ->
  turn ph w r ph' 0.
Proof.
  intros Hinv Hq Hr Hs Hid.
  assert (forall p, (forall e, is_calm e = true
                               -> p e = false) ->
                    count p (effects_of r) = 0%nat) as Hnone.
  { intros p Hp.
    apply (count_none p is_calm);
      [exact Hp|exact Hq]. }
  constructor; try assumption.
  - rewrite Hnone; [exact Hr|]. now intros [].
  - rewrite Hnone; [exact Hs|]. now intros [].
  - now apply no_release_cleared.
  - apply Hnone. now intros [].
Qed.

(** One turn of the event loop, in any phase: the phase only moves
    forward, at most one update request goes out and only when none is
    outstanding, and a shutdown trigger in an armed session whose handle is
    truthy releases it. *)
Lemma turn_any (ph : Phase) (ev : Event) (w : World) :
  phase_inv ph w ->
  exists ph' n,
    turn ph w (step JSON_parse ev w) ph' n
    /\ (n + outstanding_updates w <= 1)%nat
    /\ (ph = Armed -> is_shutdown ev = true ->
        truthy (watchdog (vars w)) = true -> ph' = Released).
Proof.
  intros Hinv. destruct ph.
  - (* Validating *)
    assert (outstanding_updates w = 0%nat) as Hzero.
    { cbn in Hinv. destruct Hinv as (Hp & _). unfold outstanding_updates.
      now rewrite Hp. }
    destruct (is_validate_response ev) eqn:Hev.
    + destruct ev as [[] err body| | | | | | |]; try discriminate Hev.
      destruct (truthy err) eqn:He.
      * destruct (validate_refused err body w Hinv (or_introl He))
          as (Hinv' & Hout & Hid).
        exists Refused, 0%nat. split; [|split; [lia|discriminate]].
        apply turn_quiet; try assumption; try reflexivity.
        rewrite Hout, He. reflexivity.
      * destruct (truthy (prop (snd (makeRequest_done JSON_parse err body))
                               "success")) eqn:Hok.
        -- destruct (validate_granted err body w Hinv He Hok) as (Hturn & _).
           exists Armed, 1%nat. split; [exact Hturn|split; [lia|discriminate]].
        -- destruct (validate_refused err body w Hinv (or_intror Hok))
             as (Hinv' & Hout & Hid).
           exists Refused, 0%nat. split; [|split; [lia|discriminate]].
           apply turn_quiet; try assumption; try reflexivity.
           rewrite Hout, He. reflexivity.
    + destruct (validating_waits ev w Hinv Hev) as (Hinv' & Hout & _ & Hid).
      exists Validating, 0%nat. split; [|split; [lia|discriminate]].
      apply turn_quiet; try assumption; try reflexivity.
      now rewrite Hout.
  - (* Refused *)
    destruct (refused_idle ev w Hinv) as (Hinv' & Hout & Hid).
    exists Refused, 0%nat. split; [|split; [|discriminate]].
    + apply turn_quiet; try assumption; try reflexivity. now rewrite Hout.
    + cbn in Hinv. destruct Hinv as (Hp & _). unfold outstanding_updates.
      rewrite Hp. cbn. lia.
  - destruct (turn_running Armed ev w (or_introl eq_refl) Hinv)
      as (ph' & n & Hturn & _ & Hn & Hs).
    exists ph', n. auto.
  - destruct (turn_running Released ev w (or_intror eq_refl) Hinv)
      as (ph' & n & Hturn & _ & Hn & Hs).
    exists ph', n. split; [exact Hturn|split; [exact Hn|discriminate]].
Qed.

Lemma run_app (evs1 evs2 : list Event) (w : World) :
  world_of (run JSON_parse (evs1 ++ evs2) w)
  = world_of (run JSON_parse evs2 (world_of (run JSON_parse evs1 w)))
  /\ effects_of (run JSON_parse (evs1 ++ evs2) w)
     = (effects_of (run JSON_parse evs1 w)
        ++ effects_of (run JSON_parse evs2 (world_of (run JSON_parse evs1 w))))%list.
Proof.
  revert w. induction evs1 as [|ev rest IH]; intros w.
  - now split.
  - unfold run in *. cbn [for_each app].
    rewrite !world_seq, !effects_seq.
    destruct (IH (world_of (step JSON_parse ev w))) as (-> & ->).
    now rewrite app_assoc.
Qed.

(** A run of the event loop, summed up. *)
Lemma run_phase (evs : list Event) :
  forall ph w,
    phase_inv ph w ->
    exists ph',
      turn ph w (run JSON_parse evs w) ph'
           (count (is_request cbUpdate) (effects_of (run JSON_parse evs w))).
Proof.
  induction evs as [|ev rest IH]; intros ph w Hinv.
  - exists ph. now apply turn_nothing.
  - destruct (turn_any ph ev w Hinv) as (ph1 & n & [I1 R1 S1 O1 U1 D1] & _ & _).
    destruct (IH ph1 _ I1) as (ph2 & [I2 R2 S2 O2 U2 D2]).
    exists ph2. unfold run in *. cbn [for_each].
    constructor; rewrite ?world_seq, ?effects_seq, ?count_app.
    + exact I2.
    + lia.
    + lia.
    + apply cleared_before_release_app; [exact O1|]. now rewrite <- D1.
    + reflexivity.
    + congruence.
Qed.

(** *** A whole session *)

Lemma concurrenceLimiter_validating (pg : Page) (rnd : Dyadic) (u : UserOptions)
      (w0 : World) (out0 : list Effect) :
  concurrenceLimiter pg rnd u = (Some w0, out0) ->
  phase_inv Validating w0
  /\ interval_id (host w0) = page_interval_id pg
  /\ maxUpdateFails (options (this w0)) = maxUpdateFails (mergeOptions defaults u)
  /\ out0 = [Log "concurrenceview plugin";
             AddClass "vjs-concurrence-limiter";
             Xhr (accessurl (mergeOptions defaults u))
                 (JObj [("player", playerID (options (this w0)))])
                 (requestTimeoutInMillis (mergeOptions defaults u)) cbValidate].
Proof.
  unfold concurrenceLimiter.
  destruct (negb _ || negb _ || negb _); [discriminate|].
  destruct ((_ =? 0) || (_ <? 5)); [discriminate|].
  unfold onPlayerReady.
  destruct (generate rnd (page_storage pg) (mergeOptions defaults u)) as [id st].
  intros H. injection H as <- <-. js_eval. cbv [set_playerID].
  repeat split; reflexivity.
Qed.

(** The trace of a session, summed up by the phase it ends in. *)
Lemma session_phase (pg : Page) (rnd : Dyadic) (u : UserOptions) (evs : list Event)
      (w : World) :
  fst (session JSON_parse pg rnd u evs) = Some w ->
  exists ph,
    phase_inv ph w
    /\ count is_release (snd (session JSON_parse pg rnd u evs)) = released ph
    /\ count is_setInterval (snd (session JSON_parse pg rnd u evs)) = started ph
    /\ cleared_before_release (page_interval_id pg) false
         (snd (session JSON_parse pg rnd u evs)) = true
    /\ interval_id (host w) = page_interval_id pg.
Proof.
  unfold session.
  destruct (concurrenceLimiter pg rnd u) as [[w0|] out0] eqn:Hboot; [|discriminate].
  destruct (concurrenceLimiter_validating _ _ _ _ _ Hboot) as (Hinv & Hid & _ & ->).
  cbn [fst snd]. intros H. injection H as <-.
  destruct (run_phase evs Validating w0 Hinv) as (ph & [I R S O U D]).
  exists ph. split; [exact I|].
  change (?a :: ?b :: ?c :: ?l)%list with ([a; b; c] ++ l)%list.
  rewrite !count_app. cbn in R, S. rewrite Nat.add_0_r in R, S.
  split; [exact R|]. split; [exact S|]. split; [|congruence].
  apply cleared_before_release_app; [reflexivity|]. now rewrite <- Hid.
Qed.

(** *** One event, then the rest *)

Lemma run_cons (ev : Event) (evs : list Event) (w : World) :
  world_of (run JSON_parse (ev :: evs) w)
  = world_of (run JSON_parse evs (world_of (step JSON_parse ev w)))
  /\ effects_of (run JSON_parse (ev :: evs) w)
     = (effects_of (step JSON_parse ev w)
        ++ effects_of (run JSON_parse evs (world_of (step JSON_parse ev w))))%list.
Proof. unfold run. cbn [for_each]. now rewrite world_seq, effects_seq. Qed.

End Running.

(** ** The claims about a session *)

Section Sessions.

Variable JSON_parse : string -> option JsVal.

(** C4.  In a session whose watchdog was started and whose interval
    handle is not zero (a browser hands out positive ones), as soon as one
    shutdown trigger has arrived after the start, however many dispose and
    beforeunload events there are and in whatever order among the other
    events, the trace holds exactly one release request, and every release
    request in it comes right after the [clearInterval] of the interval. *)
Theorem release_issued_exactly_once
        (pg : Page) (rnd : Dyadic) (u : UserOptions)
        (evs1 : list Event) (ev : Event) (evs2 : list Event) :
  page_interval_id pg <> 0 ->
  (1 <= count is_setInterval (snd (session JSON_parse pg rnd u evs1)))%nat ->
  is_shutdown ev = true ->
  count is_release (snd (session JSON_parse pg rnd u (evs1 ++ ev :: evs2))) = 1%nat
  /\ cleared_before_release (page_interval_id pg) false
       (snd (session JSON_parse pg rnd u (evs1 ++ ev :: evs2))) = true.
Proof.
  intros Hid Hstarted Hev.
  destruct (fst (session JSON_parse pg rnd u (evs1 ++ ev :: evs2))) as [w|] eqn:Hw.
  2:{ exfalso. unfold session in *.
      destruct (concurrenceLimiter pg rnd u) as [[w0|] out0] eqn:Hboot;
        [discriminate|].
      unfold concurrenceLimiter in Hboot.
      destruct (negb _ || negb _ || negb _);
        [injection Hboot as <-; cbn in Hstarted; lia|].
      destruct ((_ =? 0) || (_ <? 5)); [|discriminate].
      injection Hboot as <-. cbn in Hstarted. lia. }
  destruct (session_phase JSON_parse pg rnd u _ w Hw) as (ph & _ & HR & _ & HO & _).
  split; [|exact HO]. clear HR HO Hw w ph.
  unfold session in *.
  destruct (concurrenceLimiter pg rnd u) as [[w0|] out0] eqn:Hboot;
    [|cbn in Hstarted].
  2:{ unfold concurrenceLimiter in Hboot.
      destruct (negb _ || negb _ || negb _);
        [injection Hboot as <-; cbn in Hstarted; lia|].
      destruct ((_ =? 0) || (_ <? 5)); [|discriminate].
      injection Hboot as <-. cbn in Hstarted. lia. }
  destruct (concurrenceLimiter_validating _ _ _ _ _ Hboot)
    as (Hinv & Hid0 & _ & ->).
  cbn [snd] in *.
  rewrite count_app in Hstarted. rewrite count_app.
  change (count is_setInterval [_; _; _]) with 0%nat in Hstarted.
  change (count is_release [_; _; _]) with 0%nat.
  cbn [Nat.add] in *.
  destruct (run_app JSON_parse evs1 (ev :: evs2) w0) as (_ & ->).
  destruct (run_phase JSON_parse evs1 Validating w0 Hinv) as (ph1 & [I1 R1 S1 _ _ D1]).
  set (w1 := world_of (run JSON_parse evs1 w0)) in *.
  destruct (run_cons JSON_parse ev evs2 w1) as (_ & ->).
  destruct (turn_any JSON_parse ph1 ev w1 I1) as (ph2 & n & [I2 R2 _ _ _ _] & _ & Hs).
  destruct (run_phase JSON_parse evs2 ph2 _ I2) as (ph3 & [_ R3 _ _ _ _]).
  rewrite !count_app.
  assert (ph2 = Released) as ->.
  { destruct ph1; cbn in S1; try lia.
    - apply Hs; try reflexivity; try assumption.
      destruct I1 as (_ & _ & Hwd & _). rewrite Hwd. cbn [truthy].
      rewrite D1, Hid0. apply negb_true_iff. now apply Z.eqb_neq.
    - destruct ph2; cbn in R2; try lia. reflexivity. }
  destruct ph1, ph3; cbn in *; lia.
Qed.

(** C5.  In every world a session can reach, the in-flight flag counts
    the update requests without a response, so at most one is out; one turn
    of the event loop sends at most one, and only when none is out and the
    flag is clear; and a tick that finds the flag set changes nothing and
    sends nothing. *)
Theorem at_most_one_update_in_flight
        (pg : Page) (rnd : Dyadic) (u : UserOptions) (evs : list Event)
        (ev : Event) (w : World) :
  fst (session JSON_parse pg rnd u evs) = Some w ->
  (outstanding_updates w <= 1)%nat
  /\ outstanding_updates w = (if pendingRequest (vars w) then 1 else 0)%nat
  /\ (count (is_request cbUpdate) (effects_of (step JSON_parse ev w))
      + outstanding_updates w <= 1)%nat
  /\ ((1 <= count (is_request cbUpdate) (effects_of (step JSON_parse ev w)))%nat ->
      pendingRequest (vars w) = false /\ outstanding_updates w = 0%nat)
  /\ (pendingRequest (vars w) = true ->
      world_of (step JSON_parse EvTick w) = w
      /\ count is_network (effects_of (step JSON_parse EvTick w)) = 0%nat).
Proof.
  intros Hw.
  destruct (session_phase JSON_parse pg rnd u evs w Hw) as (ph & Hinv & _).
  pose proof (phase_flag ph w Hinv) as Hflag. unfold flag_counts in Hflag.
  destruct (turn_any JSON_parse ph ev w Hinv) as (ph' & n & [_ _ _ _ U _] & Hn & _).
  rewrite U.
  split; [rewrite Hflag; destruct (pendingRequest (vars w)); lia|].
  split; [exact Hflag|]. split; [exact Hn|]. split.
  - intros Hone. rewrite Hflag in *. destruct (pendingRequest (vars w)); [lia|].
    now split.
  - intros Hp. rewrite step_tick. destruct (timers (host w)); [now split|].
    rewrite wdf_dropped by assumption. now split.
Qed.

(** C7.  When the validate call of a live session (the player has not
    been disposed of before the response) fails in transport or its
    response has a falsy [success], the session does nothing before the
    response and nothing after it; on the response it logs and calls
    [blockPlayer], so the block notification fires once, with the code
    ['cantplay'], the plugin's name for "cannot play"; no interval is ever
    set and no update request ever sent. *)
Theorem refused_validation_blocks_with_cantplay
        (pg : Page) (rnd : Dyadic) (u : UserOptions)
        (evs0 : list Event) (err : JsVal) (body : string) (evs1 : list Event)
        (w0 : World) (out0 : list Effect) :
  concurrenceLimiter pg rnd u = (Some w0, out0) ->
  forallb (fun ev => negb (is_validate_response ev)) evs0 = true ->
  forallb (fun ev => negb (is_dispose ev)) evs0 = true ->
  truthy err = true
  \/ truthy (prop (snd (makeRequest_done JSON_parse err body)) "success") = false ->
  let T := snd (session JSON_parse pg rnd u (evs0 ++ EvXhr cbValidate err body :: evs1)) in
  T = (out0
       ++ (if truthy err then
             Log "concurrenceview: canplay api error"
             :: refusal (new_Error (fst (makeRequest_done JSON_parse err body)))
           else refusal (new_Error (JStr "Player Auth error"))))%list
  /\ count is_blocked_event T = 1%nat
  /\ count is_setInterval T = 0%nat
  /\ count (is_request cbUpdate) T = 0%nat.
Proof.
  intros Hboot Hevs0 _ Hfail T.
  assert (T = (out0
       ++ (if truthy err then
             Log "concurrenceview: canplay api error"
             :: refusal (new_Error (fst (makeRequest_done JSON_parse err body)))
           else refusal (new_Error (JStr "Player Auth error"))))%list) as HT.
  { subst T. unfold session. rewrite Hboot. cbn [snd]. f_equal.
    destruct (concurrenceLimiter_validating _ _ _ _ _ Hboot) as (Hinv & _).
    destruct (run_app JSON_parse evs0 (EvXhr cbValidate err body :: evs1) w0)
      as (_ & ->).
    destruct (validating_run JSON_parse evs0 w0 Hinv Hevs0) as (Hinv1 & -> & _).
    set (w1 := world_of (run JSON_parse evs0 w0)) in *.
    destruct (run_cons JSON_parse (EvXhr cbValidate err body) evs1 w1) as (_ & ->).
    destruct (validate_refused JSON_parse err body w1 Hinv1 Hfail)
      as (Hinv2 & -> & _).
    destruct (refused_run JSON_parse evs1 _ Hinv2) as (_ & ->).
    cbn [app]. now rewrite app_nil_r. }
  split; [exact HT|]. rewrite HT.
  destruct (concurrenceLimiter_validating _ _ _ _ _ Hboot) as (_ & _ & _ & ->).
  rewrite !count_app.
  destruct (truthy err); repeat split; reflexivity.
Qed.

End Sessions.

(** ** The recovered position *)

(** The first time-progress notification is discarded, whatever else
    holds: it only sets the flag. *)
Lemma first_timeupdate_discarded (w : World) :
  fistSent (this w) = false ->
  on_timeupdate w = (tt, upd_this (set_fistSent true) w, []).
Proof.
  intros Hfs. unfold on_timeupdate. js. rewrite Hfs, orb_true_r. reflexivity.
Qed.

(** C8.  The code on a validate response that carries position 45:
    [recoverStatus] assigns 45 to the property [currentTime] of the player
    while it handles the response, before any loadedmetadata event; when the
    event comes, the listener writes the plugin's own [currentTime] and the
    player gets no call at all; and since the player's method is now a
    number, the second time-progress notification raises a TypeError and the
    reported position stays at the start position. *)
Theorem recovered_position_is_assigned_at_once :
  let validated := [EvXhr cbValidate JNull body_position] in
  count (fun e => match e with SetProp _ _ _ => true | _ => false end)
        (snd (sample_session validated)) = 1%nat
  /\ In (SetProp "player" "currentTime" (JNum 45)) (snd (sample_session validated))
  /\ currentTime_prop (host (world_after validated)) = Some (JNum 45)
  /\ this_currentTime (this (world_after validated)) = JUndefined
  /\ snd (sample_session (validated ++ [EvLoadedMetadata]))
     = snd (sample_session validated)
  /\ this_currentTime (this (world_after (validated ++ [EvLoadedMetadata]))) = JNum 45
  /\ snd (sample_session
            (validated ++ [EvLoadedMetadata; EvTimeUpdate 0; EvTimeUpdate (50 # 1)]))
     = (snd (sample_session validated)
        ++ [Throws "TypeError: player.currentTime is not a function"])%list
  /\ lasTime (vars (world_after
                      (validated ++ [EvLoadedMetadata; EvTimeUpdate 0;
                                     EvTimeUpdate (50 # 1)]))) = 0.
Proof.
  cbv zeta.
  split; [vm_compute; reflexivity|].
  split; [vm_compute; tauto|].
  repeat (split; [vm_compute; reflexivity|]).
  vm_compute; reflexivity.
Qed.

(** ** Where the code parts from the specification *)

(** C3, counterexample.  Default options ([maxUpdateFails] is 1), the
    first update request, the counter at zero: a response without transport
    error and with an empty body terminates the session and leaves the
    counter at zero. *)
Lemma empty_body_is_not_tolerated :
  ~ unparsable_is_tolerated json_samples
      (world_after [EvXhr cbValidate JNull body_granted]) "".
Proof.
  intros (Hcount & _). vm_compute in Hcount. discriminate Hcount.
Qed.

(** ** The theorems at concrete inputs *)

Lemma invalid_configuration_witness :
  (truthy (accessurl (mergeOptions defaults bad_options)) = false
   \/ truthy (updateurl (mergeOptions defaults bad_options)) = false
   \/ truthy (disposeurl (mergeOptions defaults bad_options)) = false
   \/ interval (mergeOptions defaults bad_options) = 0
   \/ interval (mergeOptions defaults bad_options) < 5)
  /\ fst (session json_samples fresh_page one_half bad_options [EvTick; EvDispose]) = None
  /\ count is_network
       (snd (session json_samples fresh_page one_half bad_options [EvTick; EvDispose]))
     = 0%nat
  /\ count is_setInterval
       (snd (session json_samples fresh_page one_half bad_options [EvTick; EvDispose]))
     = 0%nat
  /\ List.length
       (snd (session json_samples fresh_page one_half bad_options [EvTick; EvDispose]))
     = 2%nat.
Proof.
  assert (truthy (accessurl (mergeOptions defaults bad_options)) = false
          \/ truthy (updateurl (mergeOptions defaults bad_options)) = false
          \/ truthy (disposeurl (mergeOptions defaults bad_options)) = false
          \/ interval (mergeOptions defaults bad_options) = 0
          \/ interval (mergeOptions defaults bad_options) < 5) as H
    by (right; left; reflexivity).
  split; [exact H|].
  exact (invalid_configuration_starts_nothing json_samples fresh_page one_half
           bad_options [EvTick; EvDispose] H).
Defined.

Lemma release_witness :
  let evs1 := [EvXhr cbValidate JNull body_granted] in
  let evs2 := [EvBeforeUnload; EvTick; EvDispose] in
  (page_interval_id fresh_page <> 0
   /\ (1 <= count is_setInterval
              (snd (session json_samples fresh_page one_half (urls no_options) evs1)))%nat
   /\ is_shutdown EvDispose = true)
  /\ count is_release
       (snd (session json_samples fresh_page one_half (urls no_options)
               (evs1 ++ EvDispose :: evs2))) = 1%nat
  /\ cleared_before_release (page_interval_id fresh_page) false
       (snd (session json_samples fresh_page one_half (urls no_options)
               (evs1 ++ EvDispose :: evs2))) = true.
Proof.
  intros evs1 evs2.
  assert (page_interval_id fresh_page <> 0) as H1 by (vm_compute; discriminate).
  assert (1 <= count is_setInterval
                 (snd (session json_samples fresh_page one_half (urls no_options) evs1)))%nat
    as H2 by (vm_compute; lia).
  assert (is_shutdown EvDispose = true) as H3 by reflexivity.
  split; [repeat split; assumption|].
  exact (release_issued_exactly_once json_samples fresh_page one_half (urls no_options)
           evs1 EvDispose evs2 H1 H2 H3).
Defined.

Lemma in_flight_witness :
  let evs := [EvXhr cbValidate JNull body_granted; EvTick] in
  let w := world_after evs in
  fst (session json_samples fresh_page one_half (urls no_options) evs) = Some w
  /\ (outstanding_updates w <= 1)%nat
  /\ outstanding_updates w = (if pendingRequest (vars w) then 1 else 0)%nat
  /\ (count (is_request cbUpdate) (effects_of (step json_samples EvTick w))
      + outstanding_updates w <= 1)%nat
  /\ ((1 <= count (is_request cbUpdate) (effects_of (step json_samples EvTick w)))%nat ->
      pendingRequest (vars w) = false /\ outstanding_updates w = 0%nat)
  /\ (pendingRequest (vars w) = true ->
      world_of (step json_samples EvTick w) = w
      /\ count is_network (effects_of (step json_samples EvTick w)) = 0%nat).
Proof.
  intros evs w.
  assert (fst (session json_samples fresh_page one_half (urls no_options) evs) = Some w)
    as H by (vm_compute; reflexivity).
  split; [exact H|].
  exact (at_most_one_update_in_flight json_samples fresh_page one_half (urls no_options)
           evs EvTick w H).
Defined.

Lemma refused_validation_witness :
  let w0 := world_after [] in
  let out0 := snd (sample_session []) in
  let evs0 := [EvPause] in
  let evs1 := [EvTick; EvDispose] in
  let T := snd (session json_samples fresh_page one_half (urls no_options)
                  (evs0 ++ EvXhr cbValidate JNull body_denied :: evs1)) in
  (concurrenceLimiter fresh_page one_half (urls no_options) = (Some w0, out0)
   /\ forallb (fun ev => negb (is_validate_response ev)) evs0 = true
   /\ forallb (fun ev => negb (is_dispose ev)) evs0 = true
   /\ (truthy JNull = true
       \/ truthy (prop (snd (makeRequest_done json_samples JNull body_denied)) "success")
          = false))
  /\ T = (out0
          ++ (if truthy JNull then
                Log "concurrenceview: canplay api error"
                :: refusal (new_Error (fst (makeRequest_done json_samples JNull body_denied)))
              else refusal (new_Error (JStr "Player Auth error"))))%list
  /\ count is_blocked_event T = 1%nat
  /\ count is_setInterval T = 0%nat
  /\ count (is_request cbUpdate) T = 0%nat.
Proof.
  intros w0 out0 evs0 evs1 T.
  assert (concurrenceLimiter fresh_page one_half (urls no_options) = (Some w0, out0))
    as H1 by (vm_compute; reflexivity).
  assert (forallb (fun ev => negb (is_validate_response ev)) evs0 = true) as H2
    by reflexivity.
  assert (forallb (fun ev => negb (is_dispose ev)) evs0 = true) as H2'
    by reflexivity.
  assert (truthy JNull = true
          \/ truthy (prop (snd (makeRequest_done json_samples JNull body_denied)) "success")
             = false) as H3 by (right; vm_compute; reflexivity).
  split; [repeat split; assumption|].
  exact (refused_validation_blocks_with_cantplay json_samples fresh_page one_half
           (urls no_options) evs0 JNull body_denied evs1 w0 out0 H1 H2 H2' H3).
Defined.

(** * More of the plugin *)

(** ** The id maker *)

Lemma getItem_setItem (k v : string) (items : list (string * string)) :
  getItem k (setItem k v items) = Some v.
Proof. unfold setItem. cbn. now rewrite String.eqb_refl. Qed.

Lemma generateBySessionStorage_stable (r1 r2 : Dyadic) (items : list (string * string)) :
  generateBySessionStorage r2 (snd (generateBySessionStorage r1 (Some items)))
  = generateBySessionStorage r1 (Some items)
  /\ truthy (fst (generateBySessionStorage r1 (Some items))) = true.
Proof.
  unfold generateBySessionStorage at 2 3 4.
  destruct (getItem sessionStorageKey items) as [id|] eqn:Hget.
  - destruct (negb (id =? "")%string) eqn:Hid.
    + cbn [snd fst]. cbn [generateBySessionStorage]. rewrite Hget, Hid.
      split; [reflexivity|exact Hid].
    + cbn [snd fst]. cbn [generateBySessionStorage].
      rewrite getItem_setItem. cbn. split; reflexivity.
  - cbn [snd fst]. cbn [generateBySessionStorage].
    rewrite getItem_setItem. cbn. split; reflexivity.
Qed.

(** X1.  With session storage, the id is stable: whatever [generate]
    leaves in the storage, a later call (another plugin instance on the same
    page, with another random draw) returns the same id and leaves the
    storage as it is. *)
Theorem generate_is_stable
        (r1 r2 : Dyadic) (items : list (string * string)) (o : Options) :
  generate r2 (snd (generate r1 (Some items) o)) o = generate r1 (Some items) o.
Proof.
  unfold generate. destruct (truthy (playerID o)); [reflexivity|].
  destruct (generateBySessionStorage_stable r1 r2 items) as (Hs & Ht).
  destruct (generateBySessionStorage r1 (Some items)) as [id st] eqn:H1.
  cbn [fst snd] in *. rewrite Hs. unfold js_or. now rewrite Ht.
Qed.

(** X2.  [generate] never returns a falsy id, and where the id comes
    from: a truthy id of the options is returned as it is and the storage
    left alone; without one and without session storage the id is ['rdm-']
    and the random token; with session storage a stored id is reused when
    it is not empty, and otherwise (none stored, or an empty one) the id is
    ['ssi-'] and the random token, and it is stored.  A fresh id has its
    prefix whatever the token, so also when the token is empty. *)
Theorem generate_is_truthy (r : Dyadic) (st : Storage) (o : Options) :
  truthy (fst (generate r st o)) = true
  /\ (truthy (playerID o) = true -> generate r st o = (playerID o, st))
  /\ (truthy (playerID o) = false ->
      match st with
      | None => generate r st o = (JStr ("rdm-" ++ generateRandom r None), None)
      | Some items =>
          match getItem sessionStorageKey items with
          | Some (String c id) => generate r st o = (JStr (String c id), st)
          | Some EmptyString | None =>
              generate r st o
              = (JStr ("ssi-" ++ generateRandom r None),
                 Some (setItem sessionStorageKey ("ssi-" ++ generateRandom r None)
                               items))
          end
      end).
Proof.
  split; [|split].
  - unfold generate. destruct (truthy (playerID o)) eqn:Hp; [exact Hp|].
    destruct st as [items|].
    + destruct (generateBySessionStorage_stable r r items) as (_ & Ht).
      destruct (generateBySessionStorage r (Some items)) as [id st'].
      cbn [fst] in *. unfold js_or. now rewrite Ht.
    + reflexivity.
  - intros Hp. unfold generate. now rewrite Hp.
  - intros Hp. unfold generate. rewrite Hp.
    destruct st as [items|]; [|reflexivity].
    unfold generateBySessionStorage.
    destruct (getItem sessionStorageKey items) as [[|c id]|]; reflexivity.
Qed.

Lemma generate_is_truthy_witness :
  let st := Some [(sessionStorageKey, "")] in
  truthy (playerID defaults) = false
  /\ generate one_half st defaults
     = (JStr "ssi-g", Some [(sessionStorageKey, "ssi-g")]).
Proof.
  intros st.
  assert (truthy (playerID defaults) = false) as H1 by reflexivity.
  split; [exact H1|].
  exact (proj2 (proj2 (generate_is_truthy one_half st defaults)) H1).
Defined.

(** ** Requests and responses *)

Section Responses.

Variable JSON_parse : string -> option JsVal.

(** X3.  A transport error makes the body irrelevant, for each of the
    three calls: with the same truthy [err], two responses that differ in
    their bodies (one may even parse to a granted answer) leave the same
    world and the same effects. *)
Theorem transport_error_ignores_body
        (cb : Callback) (err : JsVal) (body1 body2 : string) (w : World) :
  truthy err = true ->
  step JSON_parse (EvXhr cb err body1) w = step JSON_parse (EvXhr cb err body2) w.
Proof.
  intros He. rewrite !step_xhr.
  destruct (existsb (cb_eqb cb) (pending (host w))); [|reflexivity].
  pose proof (makeRequest_done_error JSON_parse err body1) as H1.
  pose proof (makeRequest_done_error JSON_parse err body2) as H2.
  assert (fst (makeRequest_done JSON_parse err body1)
          = fst (makeRequest_done JSON_parse err body2)) as Hfst by reflexivity.
  rewrite He in H1, H2. rewrite <- Hfst in *.
  destruct cb; cbn [callback].
  - unfold validatePlay_done. now rewrite H1.
  - unfold wdf_done. now rewrite H1.
  - reflexivity.
Qed.


End Responses.


Lemma transport_error_ignores_body_witness :
  truthy timeout_error = true
  /\ step json_samples (EvXhr cbUpdate timeout_error body_granted) first_tick
     = step json_samples (EvXhr cbUpdate timeout_error body_html) first_tick.
Proof.
  assert (truthy timeout_error = true) as H by reflexivity.
  split; [exact H|].
  exact (transport_error_ignores_body json_samples cbUpdate timeout_error
           body_granted body_html first_tick H).
Defined.

(** ** The clean-up *)

(** X5.  [cleanUp] is idempotent: after it has run once, whatever the
    interval handle held, a second run changes nothing and only writes its
    log line; no second [clearInterval], no second release request. *)
Theorem cleanUp_twice (w : World) :
  cleanUp (world_of (cleanUp w))
  = (tt, world_of (cleanUp w), [Log "concurrenceview: DISPOSE"]).
Proof.
  unfold cleanUp at 2 3. unfold player_clearInterval, makeRequest. js.
  destruct (truthy (watchdog (vars w))) eqn:Hwd.
  - reflexivity.
  - cbn [fst snd]. unfold cleanUp, player_clearInterval, makeRequest. js.
    now rewrite Hwd.
Qed.

(** ** The start of the watchdog *)

Section Startup.

Variable JSON_parse : string -> option JsVal.

(** A granted validation, written out. *)
Lemma validate_granted_trace (err : JsVal) (body : string) (w : World) :
  phase_inv Validating w ->
  truthy err = false ->
  truthy (prop (snd (makeRequest_done JSON_parse err body)) "success") = true ->
  effects_of (step JSON_parse (EvXhr cbValidate err body) w)
  = startup (options (this w)) (interval_id (host w)) (paused (host w))
            (snd (makeRequest_done JSON_parse err body))
  /\ listeners (host (world_of (step JSON_parse (EvXhr cbValidate err body) w)))
     = (recover_listener (snd (makeRequest_done JSON_parse err body))
        ++ watchdog_listeners)%list
  /\ this (world_of (step JSON_parse (EvXhr cbValidate err body) w)) = this w
  /\ lasTime (vars (world_of (step JSON_parse (EvXhr cbValidate err body) w)))
     = (if startPosition (options (this w)) =? 0 then 0
        else startPosition (options (this w)))
  /\ loadedmetadata (vars (world_of (step JSON_parse (EvXhr cbValidate err body) w)))
     = false.
Proof.
  intros Hinv He Hok. rewrite step_xhr.
  pose proof (makeRequest_done_error JSON_parse err body) as Herr.
  pose proof (truthy_prop _ _ Hok) as Htr.
  destruct (makeRequest_done JSON_parse err body) as [error ok]. cbn [fst snd] in *.
  destruct w as [[st id tm pa po ct ls pe] pl c]. cbn in Hinv.
  destruct Hinv as (-> & -> & -> & ->). cbn [existsb cb_eqb orb host pending callback].
  unfold validatePlay_done. rewrite Herr, He, Htr, Hok. cbn [andb].
  unfold onPlayerReady_done. cbn [truthy]. unfold recoverStatus, startup, recovered,
    recover_listener, first_update, watchdog_listeners.
  destruct (truthy (prop ok "position")); js_eval; repeat split; reflexivity.
Qed.

Lemma concurrenceLimiter_interval (pg : Page) (rnd : Dyadic) (u : UserOptions)
      (w0 : World) (out0 : list Effect) :
  concurrenceLimiter pg rnd u = (Some w0, out0) ->
  interval (options (this w0)) = interval (mergeOptions defaults u)
  /\ 5 <= interval (mergeOptions defaults u).
Proof.
  unfold concurrenceLimiter.
  destruct (negb _ || negb _ || negb _); [discriminate|].
  destruct ((_ =? 0) || (_ <? 5)) eqn:Hint; [discriminate|].
  apply orb_false_elim in Hint as [_ H5]. apply Z.ltb_ge in H5.
  unfold onPlayerReady.
  destruct (generate rnd (page_storage pg) (mergeOptions defaults u)) as [id st].
  intros H. injection H as <- _. split; [reflexivity|exact H5].
Qed.

Lemma count_zero_In (p : Effect -> bool) (l : list Effect) (e : Effect) :
  count p l = 0%nat -> In e l -> p e = false.
Proof.
  unfold count. induction l as [|x rest IH]; [contradiction|]. cbn.
  destruct (p x) eqn:Hx; [discriminate|].
  intros Hc [<-|Hin]; [exact Hx|now apply IH].
Qed.

(** The only interval a run can set is the one of makeWatchdog. *)
Lemma setInterval_in_run (evs : list Event) :
  forall w e,
    phase_inv Validating w ->
    In e (effects_of (run JSON_parse evs w)) ->
    is_setInterval e = true ->
    e = SetInterval (interval (options (this w)) * 1000) (interval_id (host w)).
Proof.
  induction evs as [|ev rest IH]; intros w e Hinv Hin He; [contradiction|].
  destruct (run_cons JSON_parse ev rest w) as (_ & Hout). rewrite Hout in Hin.
  apply in_app_or in Hin.
  destruct (is_validate_response ev) eqn:Hev.
  - destruct ev as [[] err body| | | | | | |]; try discriminate Hev.
    destruct (truthy err) eqn:Herr.
    + destruct (validate_refused JSON_parse err body w Hinv (or_introl Herr))
        as (Hinv' & Hstep & _).
      destruct (refused_run JSON_parse rest _ Hinv') as (_ & Hrest).
      rewrite Hstep, Hrest, Herr in Hin.
      destruct Hin as [Hin|[]]. cbn in Hin.
      repeat (destruct Hin as [<-|Hin]; [discriminate He|]). contradiction.
    + destruct (truthy (prop (snd (makeRequest_done JSON_parse err body)) "success"))
        eqn:Hok.
      * destruct (validate_granted_trace err body w Hinv Herr Hok) as (Hstep & _).
        destruct (validate_granted JSON_parse err body w Hinv Herr Hok)
          as ([I _ S _ _ _] & _).
        destruct (run_phase JSON_parse rest Armed _ I) as (ph & [_ _ S' _ _ _]).
        destruct Hin as [Hin|Hin].
        -- rewrite Hstep in Hin. unfold startup, recovered in Hin.
           destruct (truthy (prop _ "position")); cbn in Hin;
             repeat (destruct Hin as [<-|Hin]; [try discriminate He; try reflexivity|]);
             contradiction.
        -- assert (count is_setInterval
                     (effects_of (run JSON_parse rest
                        (world_of (step JSON_parse (EvXhr cbValidate err body) w))))
                   = 0%nat) as Hzero by (destruct ph; cbn [started] in S'; lia).
           rewrite (count_zero_In _ _ _ Hzero Hin) in He. discriminate.
      * destruct (validate_refused JSON_parse err body w Hinv (or_intror Hok))
          as (Hinv' & Hstep & _).
        destruct (refused_run JSON_parse rest _ Hinv') as (_ & Hrest).
        rewrite Hstep, Hrest, Herr in Hin.
        destruct Hin as [Hin|[]]. cbn in Hin.
        repeat (destruct Hin as [<-|Hin]; [discriminate He|]). contradiction.
  - destruct (validating_waits JSON_parse ev w Hinv Hev) as (Hinv' & Hstep & Hthis & Hid).
    rewrite Hstep in Hin. destruct Hin as [[]|Hin].
    rewrite <- Hthis, <- Hid. now apply IH.
Qed.

(** X8.  The start, in order, of a live session (the player has not been
    disposed of before the response) whose interval in milliseconds is
    exact in a double: when the validate response grants, whatever else
    came before it, the session registers the listeners of the
    recovered position, if there is one, and of the watchdog, sets the
    interval, sends the first heartbeat and the first update request at once
    (with no token and the start position), and only then triggers
    ['avplayercanplay']. *)
Theorem granted_validation_starts_watchdog
        (pg : Page) (rnd : Dyadic) (u : UserOptions)
        (evs0 : list Event) (err : JsVal) (body : string)
        (w0 : World) (out0 : list Effect) :
  concurrenceLimiter pg rnd u = (Some w0, out0) ->
  interval (mergeOptions defaults u) * 1000 <= 2 ^ 53 ->
  forallb (fun ev => negb (is_validate_response ev)) evs0 = true ->
  forallb (fun ev => negb (is_dispose ev)) evs0 = true ->
  truthy err = false ->
  truthy (prop (snd (makeRequest_done JSON_parse err body)) "success") = true ->
  snd (session JSON_parse pg rnd u (evs0 ++ [EvXhr cbValidate err body]))
  = (out0
     ++ startup (options (this w0)) (page_interval_id pg)
                (paused (host (world_of (run JSON_parse evs0 w0))))
                (snd (makeRequest_done JSON_parse err body)))%list.
Proof.
  intros Hboot _ Hevs0 _ He Hok.
  unfold session. rewrite Hboot. cbn [snd]. f_equal.
  destruct (concurrenceLimiter_validating _ _ _ _ _ Hboot) as (Hinv & Hid & _).
  destruct (run_app JSON_parse evs0 [EvXhr cbValidate err body] w0) as (_ & ->).
  destruct (validating_run JSON_parse evs0 w0 Hinv Hevs0) as (Hinv1 & -> & Hthis & Hid1).
  set (w1 := world_of (run JSON_parse evs0 w0)) in *.
  destruct (run_cons JSON_parse (EvXhr cbValidate err body) [] w1) as (_ & ->).
  destruct (validate_granted_trace err body w1 Hinv1 He Hok) as (-> & _).
  cbn [app run for_each ret effects_of snd]. rewrite app_nil_r.
  now rewrite Hthis, Hid1, Hid.
Qed.

(** X9.  For an interval option that is an integer number of seconds
    whose milliseconds are exact in a double: a session sets at most one
    interval, and its period is the configured interval in milliseconds, no
    less than five seconds; the handle is the one the host gave. *)
Theorem interval_is_the_configured_one
        (pg : Page) (rnd : Dyadic) (u : UserOptions) (evs : list Event) :
  interval (mergeOptions defaults u) * 1000 <= 2 ^ 53 ->
  (count is_setInterval (snd (session JSON_parse pg rnd u evs)) <= 1)%nat
  /\ forall e,
       In e (snd (session JSON_parse pg rnd u evs)) ->
       is_setInterval e = true ->
       e = SetInterval (interval (mergeOptions defaults u) * 1000) (page_interval_id pg)
       /\ 5000 <= interval (mergeOptions defaults u) * 1000.
Proof.
  intros _.
  destruct (fst (session JSON_parse pg rnd u evs)) as [w|] eqn:Hw.
  - destruct (session_phase JSON_parse pg rnd u evs w Hw) as (ph & _ & _ & HS & _).
    split; [rewrite HS; destruct ph; cbn; lia|].
    intros e Hin He. unfold session in *.
    destruct (concurrenceLimiter pg rnd u) as [[w0|] out0] eqn:Hboot; [|discriminate].
    destruct (concurrenceLimiter_validating _ _ _ _ _ Hboot) as (Hinv & Hid & _ & Hout0).
    destruct (concurrenceLimiter_interval _ _ _ _ _ Hboot) as (Hint & H5).
    cbn [snd] in Hin. apply in_app_or in Hin. destruct Hin as [Hin|Hin].
    + rewrite Hout0 in Hin. cbn in Hin.
      repeat (destruct Hin as [<-|Hin]; [discriminate He|]). contradiction.
    + rewrite (setInterval_in_run evs w0 e Hinv Hin He), Hint, Hid.
      split; [reflexivity|lia].
  - unfold session in *.
    destruct (concurrenceLimiter pg rnd u) as [[w0|] out0] eqn:Hboot; [discriminate|].
    cbn [snd]. unfold concurrenceLimiter in Hboot.
    assert (out0 = [Log "concurrenceview plugin"; Log "concurrenceview: invalid urls"]
            \/ out0 = [Log "concurrenceview plugin"; Log "concurrenceview: invalid options"])
      as [-> | ->].
    { destruct (negb _ || negb _ || negb _); [injection Hboot as <-; now left|].
      destruct ((_ =? 0) || (_ <? 5)); [injection Hboot as <-; now right|discriminate]. }
    + split; [cbn; lia|]. intros e [<-|[<-|[]]] He; discriminate He.
    + split; [cbn; lia|]. intros e [<-|[<-|[]]] He; discriminate He.
Qed.

End Startup.

Lemma granted_validation_witness :
  let w0 := world_after [] in
  let out0 := snd (sample_session []) in
  let evs0 := [EvPlay] in
  (concurrenceLimiter fresh_page one_half (urls no_options) = (Some w0, out0)
   /\ interval (mergeOptions defaults (urls no_options)) * 1000 <= 2 ^ 53
   /\ forallb (fun ev => negb (is_validate_response ev)) evs0 = true
   /\ forallb (fun ev => negb (is_dispose ev)) evs0 = true
   /\ truthy JNull = false
   /\ truthy (prop (snd (makeRequest_done json_samples JNull body_position)) "success")
      = true)
  /\ snd (session json_samples fresh_page one_half (urls no_options)
            (evs0 ++ [EvXhr cbValidate JNull body_position]))
     = (out0
        ++ startup (options (this w0)) (page_interval_id fresh_page)
                   (paused (host (world_of (run json_samples evs0 w0))))
                   (snd (makeRequest_done json_samples JNull body_position)))%list.
Proof.
  intros w0 out0 evs0.
  assert (concurrenceLimiter fresh_page one_half (urls no_options) = (Some w0, out0))
    as H1 by (vm_compute; reflexivity).
  assert (interval (mergeOptions defaults (urls no_options)) * 1000 <= 2 ^ 53) as H1'
    by (vm_compute; discriminate).
  assert (forallb (fun ev => negb (is_validate_response ev)) evs0 = true) as H2
    by reflexivity.
  assert (forallb (fun ev => negb (is_dispose ev)) evs0 = true) as H2'
    by reflexivity.
  assert (truthy JNull = false) as H3 by reflexivity.
  assert (truthy (prop (snd (makeRequest_done json_samples JNull body_position)) "success")
          = true) as H4 by (vm_compute; reflexivity).
  split; [repeat split; assumption|].
  exact (granted_validation_starts_watchdog json_samples fresh_page one_half
           (urls no_options) evs0 JNull body_position w0 out0 H1 H1' H2 H2' H3 H4).
Defined.

Lemma interval_witness :
  let T := snd (sample_session [EvXhr cbValidate JNull body_granted; EvTick]) in
  interval (mergeOptions defaults (urls no_options)) * 1000 <= 2 ^ 53
  /\ (count is_setInterval T <= 1)%nat
  /\ forall e,
       In e T ->
       is_setInterval e = true ->
       e = SetInterval (interval (mergeOptions defaults (urls no_options)) * 1000)
                       (page_interval_id fresh_page)
       /\ 5000 <= interval (mergeOptions defaults (urls no_options)) * 1000.
Proof.
  intros T.
  assert (interval (mergeOptions defaults (urls no_options)) * 1000 <= 2 ^ 53) as H1
    by (vm_compute; discriminate).
  split; [exact H1|].
  exact (interval_is_the_configured_one json_samples fresh_page one_half
           (urls no_options) [EvXhr cbValidate JNull body_granted; EvTick] H1).
Defined.

(** ** Termination *)

Section Termination.

Variable JSON_parse : string -> option JsVal.

(** [blockPlayer] in an armed session whose handle is truthy: the dispose
    listeners release the session. *)
Lemma blockPlayer_releases (code error reason : JsVal) (w : World) (id : Z) :
  watchdog (vars w) = JNum id ->
  truthy (watchdog (vars w)) = true ->
  runs_cleanUp ev_dispose (listeners (host w)) = true ->
  count is_blocked_event (effects_of (blockPlayer code error reason w)) = 1%nat
  /\ count is_release (effects_of (blockPlayer code error reason w)) = 1%nat
  /\ count (is_request cbUpdate) (effects_of (blockPlayer code error reason w)) = 0%nat
  /\ cleared_before_release id false (effects_of (blockPlayer code error reason w)) = true
  /\ watchdog (vars (world_of (blockPlayer code error reason w))) = JBool false.
Proof.
  intros Hid Hwd Hrun. rewrite blockPlayer_unfold. cbn [effects_of world_of fst snd].
  destruct (fire_ran ev_dispose (upd_host (set_paused true) w)) as [_ W R _ E O].
  cbn [upd_host vars host listeners set_paused] in W, R, O.
  rewrite Hwd, Hrun in W, R. cbn [andb] in W, R.
  change (?a :: ?b :: ?c :: ?d :: ?l)%list with ([a; b; c; d] ++ l)%list.
  assert (count is_blocked_event
            (effects_of (fire ev_dispose (upd_host (set_paused true) w))) = 0%nat) as Hb
    by (apply listener_effect_not; [now intros []|exact E]).
  assert (count (is_request cbUpdate)
            (effects_of (fire ev_dispose (upd_host (set_paused true) w))) = 0%nat) as Hu.
  { apply listener_effect_not; [|exact E].
    intros [] He; try reflexivity; cbn in *; now destruct cb. }
  rewrite !count_app, R, Hb, Hu.
  repeat split; try reflexivity; try exact W.
  apply cleared_before_release_app; [reflexivity|].
  apply O. now left.
Qed.

(** X11.  Whenever the watchdog of an armed session terminates it, by a
    denial or by one failure too many, the termination runs the clean-up
    through the dispose listener: one block notification, then exactly one
    release request right after the [clearInterval] of the interval, the
    handle dropped, and no further update request. *)
Theorem termination_sends_release
        (err : JsVal) (body : string) (w : World) :
  phase_inv Armed w ->
  truthy (watchdog (vars w)) = true ->
  existsb (cb_eqb cbUpdate) (pending (host w)) = true ->
  (truthy err = true /\ maxUpdateFails (options (this w)) <= failedRequest (vars w))
  \/ (truthy err = false
      /\ truthy (prop (snd (makeRequest_done JSON_parse err body)) "success") = false) ->
  count is_blocked_event (effects_of (step JSON_parse (EvXhr cbUpdate err body) w)) = 1%nat
  /\ count is_release (effects_of (step JSON_parse (EvXhr cbUpdate err body) w)) = 1%nat
  /\ count (is_request cbUpdate)
           (effects_of (step JSON_parse (EvXhr cbUpdate err body) w)) = 0%nat
  /\ cleared_before_release (interval_id (host w)) false
       (effects_of (step JSON_parse (EvXhr cbUpdate err body) w)) = true
  /\ watchdog (vars (world_of (step JSON_parse (EvXhr cbUpdate err body) w)))
     = JBool false.
Proof.
  intros (_ & _ & Hid & Hrun & _) Hwd Hin Hcase.
  rewrite step_xhr, Hin. cbn [callback].
  set (w1 := upd_host _ w).
  destruct Hcase as [(He & Hmax)|(He & Hok)].
  - rewrite wdf_done_exhausted
      by (rewrite ?makeRequest_done_error; try exact He; now apply Z.leb_le).
    cbn [effects_of world_of fst snd].
    destruct (blockPlayer_releases player (JStr "authapifail")
                (JObj [("msg", fst (makeRequest_done JSON_parse err body))])
                (upd_vars (set_pendingRequest false) w1) (interval_id (host w))
                Hid Hwd Hrun) as (Hb & Hr & Hu & Ho & Hw).
    change (Log ?x :: ?l) with ([Log x] ++ l)%list.
    rewrite !count_app, Hb, Hr, Hu.
    repeat split; try reflexivity; try exact Hw.
    now apply cleared_before_release_app.
  - rewrite wdf_done_denied
      by (rewrite ?makeRequest_done_error, ?Hok, ?andb_false_r; auto).
    cbn [effects_of world_of fst snd].
    destruct (blockPlayer_releases player (JStr "noauth")
                (snd (makeRequest_done JSON_parse err body))
                (upd_vars (fun c => set_failedRequest 0 (set_pendingRequest false c)) w1)
                (interval_id (host w)) Hid Hwd Hrun) as (Hb & Hr & Hu & Ho & Hw).
    change (Log ?x :: ?l) with ([Log x] ++ l)%list.
    rewrite !count_app, Hb, Hr, Hu.
    repeat split; try reflexivity; try exact Hw.
    now apply cleared_before_release_app.
Qed.

End Termination.

Lemma first_tick_is_armed : phase_inv Armed first_tick.
Proof.
  cbv [phase_inv flag_counts].
  split; [vm_compute; reflexivity|].
  split; [vm_compute; reflexivity|].
  split; [vm_compute; reflexivity|].
  split; vm_compute; reflexivity.
Qed.

Lemma termination_sends_release_witness :
  (phase_inv Armed first_tick
   /\ truthy (watchdog (vars first_tick)) = true
   /\ existsb (cb_eqb cbUpdate) (pending (host first_tick)) = true
   /\ ((truthy JNull = true
        /\ maxUpdateFails (options (this first_tick)) <= failedRequest (vars first_tick))
       \/ (truthy JNull = false
           /\ truthy (prop (snd (makeRequest_done json_samples JNull body_denied)) "success")
              = false)))
  /\ count is_blocked_event
       (effects_of (step json_samples (EvXhr cbUpdate JNull body_denied) first_tick)) = 1%nat
  /\ count is_release
       (effects_of (step json_samples (EvXhr cbUpdate JNull body_denied) first_tick)) = 1%nat
  /\ count (is_request cbUpdate)
       (effects_of (step json_samples (EvXhr cbUpdate JNull body_denied) first_tick)) = 0%nat
  /\ cleared_before_release (interval_id (host first_tick)) false
       (effects_of (step json_samples (EvXhr cbUpdate JNull body_denied) first_tick)) = true
  /\ watchdog (vars (world_of (step json_samples (EvXhr cbUpdate JNull body_denied)
                                    first_tick)))
     = JBool false.
Proof.
  pose proof first_tick_is_armed as H1.
  assert (truthy (watchdog (vars first_tick)) = true) as H2 by (vm_compute; reflexivity).
  assert (existsb (cb_eqb cbUpdate) (pending (host first_tick)) = true) as H3
    by (vm_compute; reflexivity).
  assert ((truthy JNull = true
           /\ maxUpdateFails (options (this first_tick)) <= failedRequest (vars first_tick))
          \/ (truthy JNull = false
              /\ truthy (prop (snd (makeRequest_done json_samples JNull body_denied))
                              "success") = false)) as H4
    by (right; split; vm_compute; reflexivity).
  split; [repeat split; assumption|].
  exact (termination_sends_release json_samples JNull body_denied first_tick H1 H2 H3 H4).
Defined.

(** ** Where the requests go *)

Lemma keeps_nothing (w : World) : keeps_to_options w (tt, w, []).
Proof. split; [reflexivity|constructor]. Qed.

Lemma keeps_seq (m1 m2 : Js unit) (w : World) :
  keeps_to_options w (m1 w) ->
  (forall w1, keeps_to_options w1 (m2 w1)) ->
  keeps_to_options w ((m1 ;; m2) w).
Proof.
  intros [H1 F1] H2. destruct (H2 (world_of (m1 w))) as [H2' F2].
  split; rewrite ?world_seq, ?effects_seq.
  - congruence.
  - apply Forall_app. split; [exact F1|]. now rewrite <- H1.
Qed.

Lemma keeps_prepend (pre : list Effect) (w w1 : World)
      (r : unit * World * list Effect) :
  keeps_to_options w1 r ->
  options (this w1) = options (this w) ->
  Forall (request_ok (options (this w))) pre ->
  keeps_to_options w (tt, world_of r, (pre ++ effects_of r)%list).
Proof.
  intros [H F] Ho Hpre. split; cbn.
  - unfold world_of in *. congruence.
  - apply Forall_app. split; [exact Hpre|]. now rewrite <- Ho.
Qed.

Lemma cleanUp_keeps (w : World) : keeps_to_options w (cleanUp w).
Proof.
  unfold cleanUp, player_clearInterval, makeRequest. js.
  destruct (truthy (watchdog (vars w))); cbn; split; try reflexivity;
    repeat constructor.
Qed.

Lemma run_handler_keeps (h : Handler) (w : World) :
  keeps_to_options w (run_handler h w).
Proof.
  destruct h; cbn [run_handler]; [| | |apply cleanUp_keeps].
  - js. split; [reflexivity|constructor].
  - js. split; [reflexivity|constructor].
  - unfold on_timeupdate. js.
    destruct (negb (loadedmetadata (vars w)) || negb (fistSent (this w)));
      [split; [reflexivity|constructor]|].
    destruct (currentTime_prop (host w)); split; try reflexivity; repeat constructor.
Qed.

Lemma for_each_listener_keeps (ev : EventName) (ls : list (EventName * Handler)) :
  forall w,
    keeps_to_options w
      (for_each (fun l => when (ev_eqb (fst l) ev) (run_handler (snd l))) ls w).
Proof.
  induction ls as [|[e h] rest IH]; intros w.
  - apply keeps_nothing.
  - cbn [for_each fst snd]. apply keeps_seq; [|exact IH].
    destruct (ev_eqb e ev); cbn [when].
    + apply run_handler_keeps.
    + apply keeps_nothing.
Qed.

Lemma fire_keeps (ev : EventName) (w : World) : keeps_to_options w (fire ev w).
Proof.
  pose proof (for_each_listener_keeps ev (listeners (host w)) w) as H.
  unfold fire, bind, read.
  destruct (for_each _ (listeners (host w)) w) as [[[] w'] out]. exact H.
Qed.

Lemma blockPlayer_keeps (code error reason : JsVal) (w : World) :
  keeps_to_options w (blockPlayer code error reason w).
Proof.
  rewrite blockPlayer_unfold.
  change (Log ?a :: ?b :: ?c :: ?d :: ?l)%list with ([Log a; b; c; d] ++ l)%list.
  apply keeps_prepend with (w1 := upd_host (set_paused true) w).
  - apply fire_keeps.
  - reflexivity.
  - repeat constructor.
Qed.

Lemma wdf_keeps (w : World) : keeps_to_options w (wdf w).
Proof.
  destruct (pendingRequest (vars w)) eqn:Hp.
  - rewrite wdf_dropped by assumption. split; [reflexivity|repeat constructor].
  - rewrite wdf_issued by assumption. split; [reflexivity|repeat constructor].
Qed.

Lemma wdf_done_keeps (error response : JsVal) (w : World) :
  keeps_to_options w (wdf_done error response w).
Proof.
  destruct (truthy error) eqn:He.
  - destruct (maxUpdateFails (options (this w)) <=? failedRequest (vars w)) eqn:Hmax.
    + rewrite wdf_done_exhausted by assumption.
      destruct (blockPlayer_keeps player (JStr "authapifail") (JObj [("msg", error)])
                  (upd_vars (set_pendingRequest false) w)) as [Ho Hf].
      split; cbn; [exact Ho|]. constructor; [exact I|exact Hf].
    + rewrite wdf_done_tolerated by assumption. split; [reflexivity|constructor].
  - destruct (truthy response && truthy (prop response "success")) eqn:Hok.
    + rewrite wdf_done_granted by assumption. split; [reflexivity|constructor].
    + rewrite wdf_done_denied by assumption.
      destruct (blockPlayer_keeps player (JStr "noauth") response
                  (upd_vars (fun c => set_failedRequest 0 (set_pendingRequest false c)) w))
        as [Ho Hf].
      split; cbn; [exact Ho|]. constructor; [exact I|exact Hf].
Qed.

Lemma makeWatchdog_keeps (ok : JsVal) (w : World) :
  keeps_to_options w (makeWatchdog ok w).
Proof.
  unfold keeps_to_options, makeWatchdog, player_on, window_addEventListener,
    player_setInterval, wdf, makeRequest.
  js. cbn. split; [reflexivity|repeat constructor].
Qed.

Lemma recoverStatus_keeps (info : JsVal) (w : World) :
  keeps_to_options w (recoverStatus info w).
Proof.
  unfold keeps_to_options, recoverStatus, player_on.
  destruct (negb (truthy (prop info "position"))); js; cbn;
    (split; [reflexivity|repeat constructor]).
Qed.

Lemma onPlayerReady_done_keeps (error ok : JsVal) (w : World) :
  keeps_to_options w (onPlayerReady_done error ok w).
Proof.
  unfold onPlayerReady_done. destruct (truthy error).
  - apply keeps_seq; [split; [reflexivity|repeat constructor]|].
    intros w1. apply blockPlayer_keeps.
  - apply keeps_seq; [apply recoverStatus_keeps|]. intros w1. apply makeWatchdog_keeps.
Qed.

Lemma validatePlay_done_keeps (error ok : JsVal) (w : World) :
  keeps_to_options w (validatePlay_done onPlayerReady_done error ok w).
Proof.
  unfold validatePlay_done. destruct (truthy error).
  - apply keeps_seq; [split; [reflexivity|repeat constructor]|].
    intros w1. apply onPlayerReady_done_keeps.
  - destruct (truthy ok && truthy (prop ok "success")).
    + apply keeps_seq; [apply onPlayerReady_done_keeps|].
      intros w1. split; [reflexivity|repeat constructor].
    + apply onPlayerReady_done_keeps.
Qed.

Lemma request_ok_set_playerID (id : JsVal) (o : Options) (e : Effect) :
  request_ok (set_playerID id o) e <-> request_ok o e.
Proof. destruct e; try tauto; destruct cb; cbn; tauto. Qed.

Section Requests.

Variable JSON_parse : string -> option JsVal.

Lemma step_keeps (ev : Event) (w : World) :
  keeps_to_options w (step JSON_parse ev w).
Proof.
  destruct ev.
  - rewrite step_xhr. destruct (existsb (cb_eqb cb) (pending (host w)));
      [|apply keeps_nothing].
    set (w1 := upd_host _ w).
    change (options (this w)) with (options (this w1)).
    assert (forall r, keeps_to_options w1 r -> keeps_to_options w r) as Hbase
      by (intros r H; exact H).
    apply Hbase. destruct cb; cbn [callback].
    + apply validatePlay_done_keeps.
    + apply wdf_done_keeps.
    + apply keeps_nothing.
  - rewrite step_tick. destruct (timers (host w)); [apply keeps_nothing|apply wdf_keeps].
  - apply fire_keeps.
  - rewrite step_timeupdate. apply (fire_keeps ev_timeupdate (upd_host (set_position cur) w)).
  - apply fire_keeps.
  - apply fire_keeps.
  - split; [reflexivity|constructor].
  - split; [reflexivity|constructor].
Qed.

Lemma run_keeps (evs : list Event) :
  forall w, keeps_to_options w (run JSON_parse evs w).
Proof.
  induction evs as [|ev rest IH]; intros w.
  - apply keeps_nothing.
  - unfold run in *. cbn [for_each]. apply keeps_seq; [apply step_keeps|exact IH].
Qed.

(** X10.  Whatever the events of a session, every request it sends goes
    to the url of the merged options that belongs to its callback (the
    access url for validation, the update url for a heartbeat, the dispose
    url for the release) and carries the merged request timeout; responses
    never redirect the plugin. *)
Theorem requests_go_to_the_configured_urls
        (pg : Page) (rnd : Dyadic) (u : UserOptions) (evs : list Event) :
  Forall (request_ok (mergeOptions defaults u)) (snd (session JSON_parse pg rnd u evs)).
Proof.
  unfold session.
  destruct (concurrenceLimiter pg rnd u) as [[w0|] out0] eqn:Hboot; cbn [snd].
  - assert (options (this w0)
            = set_playerID (playerID (options (this w0))) (mergeOptions defaults u)
            /\ Forall (request_ok (mergeOptions defaults u)) out0) as (Ho & Hout).
    { unfold concurrenceLimiter in Hboot.
      destruct (negb _ || negb _ || negb _); [discriminate|].
      destruct ((_ =? 0) || (_ <? 5)); [discriminate|].
      unfold onPlayerReady in Hboot.
      destruct (generate rnd (page_storage pg) (mergeOptions defaults u)) as [id st].
      injection Hboot as <- <-. split; [reflexivity|]. repeat constructor. }
    apply Forall_app. split; [exact Hout|].
    destruct (run_keeps evs w0) as [_ Hrun]. rewrite Ho in Hrun.
    eapply Forall_impl; [|exact Hrun].
    intros e He. now apply request_ok_set_playerID in He.
  - unfold concurrenceLimiter in Hboot.
    destruct (negb _ || negb _ || negb _); [injection Hboot as <-; repeat constructor|].
    destruct ((_ =? 0) || (_ <? 5)); [injection Hboot as <-; repeat constructor|].
    discriminate.
Qed.

End Requests.

(** ** The reported position *)

Lemma holds_nothing (s : Z) (w : World) : tracking s w -> holds_position s (tt, w, []).
Proof. intros H. split; [exact H|constructor]. Qed.

Lemma holds_seq (s : Z) (m1 m2 : Js unit) (w : World) :
  holds_position s (m1 w) ->
  (forall w1, tracking s w1 -> holds_position s (m2 w1)) ->
  holds_position s ((m1 ;; m2) w).
Proof.
  intros [T1 F1] H2. destruct (H2 _ T1) as [T2 F2].
  split; rewrite ?world_seq, ?effects_seq; [exact T2|].
  apply Forall_app. now split.
Qed.

Lemma run_handler_holds (s : Z) (h : Handler) (w : World) :
  h <> hLoaded -> tracking s w -> holds_position s (run_handler h w).
Proof.
  intros Hh (Hl & Hv & Hlm & Hs). destruct h; cbn [run_handler]; [|congruence| |].
  - js. split; [repeat split; assumption|constructor].
  - unfold on_timeupdate. js. rewrite Hlm. cbn [negb orb].
    split; [repeat split; assumption|constructor].
  - unfold cleanUp, player_clearInterval, makeRequest. js.
    destruct (truthy (watchdog (vars w))); cbn.
    + split; [|rewrite Hs; repeat constructor].
      repeat split; try assumption. cbn. rewrite existsb_app, Hv. reflexivity.
    + split; [repeat split; assumption|repeat constructor].
Qed.

Lemma for_each_listener_holds (s : Z) (ev : EventName)
      (ls : list (EventName * Handler)) :
  Forall (fun l => ev_eqb (fst l) ev = true -> snd l <> hLoaded) ls ->
  forall w,
    tracking s w ->
    holds_position s
      (for_each (fun l => when (ev_eqb (fst l) ev) (run_handler (snd l))) ls w).
Proof.
  induction 1 as [|[e h] rest Hh Hrest IH]; intros w Ht.
  - now apply holds_nothing.
  - cbn [for_each fst snd] in *. apply holds_seq; [|exact IH].
    destruct (ev_eqb e ev); cbn [when].
    + apply run_handler_holds; auto.
    + now apply holds_nothing.
Qed.

Lemma fire_holds (s : Z) (ev : EventName) (w : World) :
  ev_eqb ev_loadedmetadata ev = false ->
  tracking s w -> holds_position s (fire ev w).
Proof.
  intros Hev Ht.
  assert (Forall (fun l => ev_eqb (fst l) ev = true -> snd l <> hLoaded)
                 (listeners (host w))) as Hls.
  { destruct Ht as ([->|(p & ->)] & _); unfold watchdog_listeners;
      repeat constructor; cbn [fst snd]; congruence. }
  pose proof (for_each_listener_holds s ev _ Hls w Ht) as H.
  unfold fire, bind, read.
  destruct (for_each _ (listeners (host w)) w) as [[[] w'] out]. exact H.
Qed.

Lemma tracking_same (s : Z) (w w' : World) :
  tracking s w ->
  listeners (host w') = listeners (host w) ->
  existsb (cb_eqb cbValidate) (pending (host w')) = false ->
  loadedmetadata (vars w') = loadedmetadata (vars w) ->
  lasTime (vars w') = lasTime (vars w) ->
  tracking s w'.
Proof.
  intros (Hl & Hv & Hlm & Hs) Hl' Hv' Hlm' Hs'. unfold tracking.
  rewrite Hl', Hlm', Hs'. tauto.
Qed.

Lemma blockPlayer_holds (s : Z) (code error reason : JsVal) (w : World) :
  tracking s w -> holds_position s (blockPlayer code error reason w).
Proof.
  intros Ht. rewrite blockPlayer_unfold.
  destruct (fire_holds s ev_dispose (upd_host (set_paused true) w) eq_refl) as [T F].
  { apply (tracking_same s w); try reflexivity; try assumption. apply Ht. }
  split; [exact T|]. cbn [effects_of snd]. repeat constructor. exact F.
Qed.

Lemma wdf_holds (s : Z) (w : World) : tracking s w -> holds_position s (wdf w).
Proof.
  intros Ht. destruct (pendingRequest (vars w)) eqn:Hp.
  - rewrite wdf_dropped by assumption. split; [exact Ht|repeat constructor].
  - rewrite wdf_issued by assumption. split.
    + apply (tracking_same s w); try reflexivity; try assumption.
      cbn. rewrite existsb_app. destruct Ht as (_ & -> & _). reflexivity.
    + destruct Ht as (_ & _ & _ & <-). repeat constructor.
Qed.

Lemma wdf_done_holds (s : Z) (error response : JsVal) (w : World) :
  tracking s w -> holds_position s (wdf_done error response w).
Proof.
  intros Ht.
  assert (forall f, loadedmetadata (f (vars w)) = loadedmetadata (vars w) ->
                    lasTime (f (vars w)) = lasTime (vars w) ->
                    tracking s (upd_vars f w)) as Hupd.
  { intros f H1 H2. apply (tracking_same s w); try assumption; try reflexivity.
    apply Ht. }
  destruct (truthy error) eqn:He.
  - destruct (maxUpdateFails (options (this w)) <=? failedRequest (vars w)) eqn:Hmax.
    + rewrite wdf_done_exhausted by assumption.
      destruct (blockPlayer_holds s player (JStr "authapifail") (JObj [("msg", error)])
                  (upd_vars (set_pendingRequest false) w)) as [T F];
        [now apply Hupd|].
      split; cbn [world_of effects_of fst snd]; [|constructor; [exact I|exact F]].
      apply (tracking_same s _ _ T); try reflexivity. apply T.
    + rewrite wdf_done_tolerated by assumption.
      split; [now apply Hupd|constructor].
  - destruct (truthy response && truthy (prop response "success")) eqn:Hok.
    + rewrite wdf_done_granted by assumption.
      split; [now apply Hupd|constructor].
    + rewrite wdf_done_denied by assumption.
      destruct (blockPlayer_holds s player (JStr "noauth") response
                  (upd_vars (fun c => set_failedRequest 0 (set_pendingRequest false c)) w))
        as [T F]; [now apply Hupd|].
      split; cbn [world_of effects_of fst snd]; [exact T|].
      constructor; [exact I|exact F].
Qed.

Lemma Math_round_or_0 (q : Q) :
  Math_round (if Qeq_bool q 0 then 0%Q else q) = Math_round q.
Proof.
  destruct (Qeq_bool q 0) eqn:H; [|reflexivity].
  apply Qeq_bool_eq in H. unfold Math_round. apply Qfloor_comp. now rewrite H.
Qed.

Section Position.

Variable JSON_parse : string -> option JsVal.

Lemma step_holds (s : Z) (ev : Event) (w : World) :
  is_loadedmetadata ev = false ->
  tracking s w -> holds_position s (step JSON_parse ev w).
Proof.
  intros Hev Ht. destruct ev; try discriminate Hev.
  - rewrite step_xhr. destruct (existsb (cb_eqb cb) (pending (host w))) eqn:Hin;
      [|now apply holds_nothing].
    assert (tracking s (upd_host (set_pending (remove_first cb (pending (host w)))) w))
      as Ht1.
    { apply (tracking_same s w); try reflexivity; try assumption.
      cbn. apply existsb_remove_first. apply Ht. }
    destruct cb; cbn [callback].
    + destruct Ht as (_ & Hv & _). congruence.
    + now apply wdf_done_holds.
    + now apply holds_nothing.
  - rewrite step_tick. destruct (timers (host w));
      [now apply holds_nothing|now apply wdf_holds].
  - rewrite step_timeupdate. apply fire_holds; [reflexivity|].
    apply (tracking_same s w); try reflexivity; try assumption. apply Ht.
  - now apply fire_holds.
  - now apply fire_holds.
  - split; [|constructor].
    apply (tracking_same s w); try reflexivity; try assumption. apply Ht.
  - split; [|constructor].
    apply (tracking_same s w); try reflexivity; try assumption. apply Ht.
Qed.

Lemma run_holds (s : Z) (evs : list Event) :
  forallb (fun ev => negb (is_loadedmetadata ev)) evs = true ->
  forall w, tracking s w -> holds_position s (run JSON_parse evs w).
Proof.
  induction evs as [|ev rest IH]; intros Hevs w Ht.
  - now apply holds_nothing.
  - cbn in Hevs. apply andb_true_iff in Hevs as [Hev Hrest].
    apply negb_true_iff in Hev.
    unfold run in *. cbn [for_each]. apply holds_seq; [now apply step_holds|].
    intros w1 Ht1. now apply IH.
Qed.

(** X6.  Until a loadedmetadata event reaches the watchdog, the reported
    position never moves: from the granted validation on, whatever events
    arrive (time-progress notifications, ticks, responses, shutdown) as long
    as no loadedmetadata is among them, every update request and the release
    request report the start position of the merged options.  Metadata that
    was loaded before the validation response does not count: the flag
    starts clear when makeWatchdog runs. *)
Theorem start_position_until_loadedmetadata
        (pg : Page) (rnd : Dyadic) (u : UserOptions)
        (evs0 : list Event) (err : JsVal) (body : string) (evs1 : list Event)
        (w0 : World) (out0 : list Effect) :
  concurrenceLimiter pg rnd u = (Some w0, out0) ->
  forallb (fun ev => negb (is_validate_response ev)) evs0 = true ->
  truthy err = false ->
  truthy (prop (snd (makeRequest_done JSON_parse err body)) "success") = true ->
  forallb (fun ev => negb (is_loadedmetadata ev)) evs1 = true ->
  let s := if startPosition (mergeOptions defaults u) =? 0 then 0
           else startPosition (mergeOptions defaults u) in
  Forall (reports s)
         (snd (session JSON_parse pg rnd u (evs0 ++ EvXhr cbValidate err body :: evs1))).
Proof.
  intros Hboot Hevs0 He Hok Hevs1 s.
  unfold session. rewrite Hboot. cbn [snd].
  destruct (concurrenceLimiter_validating _ _ _ _ _ Hboot) as (Hinv & _ & _ & Hout0).
  assert (startPosition (options (this w0)) = startPosition (mergeOptions defaults u))
    as Hstart.
  { unfold concurrenceLimiter in Hboot.
    destruct (negb _ || negb _ || negb _); [discriminate|].
    destruct ((_ =? 0) || (_ <? 5)); [discriminate|].
    unfold onPlayerReady in Hboot.
    destruct (generate rnd (page_storage pg) (mergeOptions defaults u)) as [id st].
    injection Hboot as <- _. reflexivity. }
  apply Forall_app. split; [rewrite Hout0; repeat constructor|].
  destruct (run_app JSON_parse evs0 (EvXhr cbValidate err body :: evs1) w0) as (_ & ->).
  destruct (validating_run JSON_parse evs0 w0 Hinv Hevs0) as (Hinv1 & -> & Hthis & _).
  set (w1 := world_of (run JSON_parse evs0 w0)) in *.
  destruct (run_cons JSON_parse (EvXhr cbValidate err body) evs1 w1) as (_ & ->).
  destruct (validate_granted_trace JSON_parse err body w1 Hinv1 He Hok)
    as (Hstep & Hls & _ & Hlas & Hlm).
  destruct (validate_granted JSON_parse err body w1 Hinv1 He Hok) as ([I _ _ _ _ _] & _).
  set (w2 := world_of (step JSON_parse (EvXhr cbValidate err body) w1)) in *.
  assert (tracking s w2) as Ht.
  { unfold tracking. rewrite Hls, Hlm, Hlas, Hthis, Hstart.
    destruct I as (Hv & _).
    split; [|repeat split; assumption].
    unfold recover_listener. destruct (truthy (prop _ "position")); cbn [app].
    - right. eexists. reflexivity.
    - now left. }
  cbn [app]. apply Forall_app. split.
  - rewrite Hstep. unfold startup, recovered, first_update.
    rewrite Hthis, Hstart. fold s.
    destruct (truthy (prop _ "position")); repeat constructor.
  - apply (run_holds s evs1 Hevs1 w2 Ht).
Qed.

(** X7.  What the watchdog samples once the metadata is loaded, in a
    session without a recovered position.  The one notification it discards
    is the first it ever gets: after loadedmetadata the first time-progress
    notification is dropped and the second is sampled, rounded to the
    nearest second; but a notification that came before loadedmetadata has
    used the discard up, and then the first one after it is sampled. *)
Theorem first_notification_is_the_warm_up (a b : Q) (w : World) :
  listeners (host w) = watchdog_listeners ->
  currentTime_prop (host w) = None ->
  loadedmetadata (vars w) = false ->
  fistSent (this w) = false ->
  lasTime (vars (world_of (run JSON_parse [EvLoadedMetadata; EvTimeUpdate a] w)))
  = lasTime (vars w)
  /\ lasTime (vars (world_of
                      (run JSON_parse [EvLoadedMetadata; EvTimeUpdate a; EvTimeUpdate b] w)))
     = Math_round b
  /\ lasTime (vars (world_of
                      (run JSON_parse [EvTimeUpdate a; EvLoadedMetadata; EvTimeUpdate b] w)))
     = Math_round b.
Proof.
  destruct w as [[st id tm pa po ct ls pe] [o fs tc] [wd lt tk pid lm pr fr]].
  cbn. intros -> -> -> ->.
  unfold watchdog_listeners. cbv [run step]. js_eval.
  rewrite !Math_round_or_0. repeat split; reflexivity.
Qed.

End Position.

(** ** The release request *)

Section Release.

Variable JSON_parse : string -> option JsVal.

(** X12.  The first shutdown trigger of a running session, be it the
    dispose of the player or the unload of the page: the interval held in
    the handle is cleared and removed from the host, and the release request
    carries the player id, the token and the position the closure holds at
    that moment (so a rotated token and the last sampled position), with the
    status ['paused'] whatever the player is doing. *)
Theorem shutdown_releases_with_last_state (ev : Event) (w : World) (id : Z) :
  installed (listeners (host w)) ->
  watchdog (vars w) = JNum id ->
  id <> 0 ->
  is_shutdown ev = true ->
  effects_of (step JSON_parse ev w)
  = [Log "concurrenceview: DISPOSE"; ClearInterval (JNum id); release_request w]
  /\ ~ In id (timers (host (world_of (step JSON_parse ev w))))
  /\ watchdog (vars (world_of (step JSON_parse ev w))) = JBool false.
Proof.
  intros Hls Hwd Hid Hev.
  assert ((id =? 0) = false) as Hz by now apply Z.eqb_neq.
  assert (forall tm, ~ In id (filter (fun t => negb (t =? id)) tm)) as Hfilter.
  { intros tm Hin. apply filter_In in Hin as (_ & Hin).
    now rewrite Z.eqb_refl in Hin. }
  destruct w as [[st i tm pa po ct ls pe] [o fs tc] [wd lt tk pid lm pr fr]].
  cbn in Hls, Hwd. subst wd. unfold release_request.
  destruct ev; try discriminate Hev;
    destruct Hls as [->|(p & ->)]; unfold watchdog_listeners;
    cbv [step]; js_eval; rewrite Hz; cbn [negb];
    (split; [reflexivity|split; [apply Hfilter|reflexivity]]).
Qed.

End Release.

(** ** One validation *)







Section Validation.

Variable JSON_parse : string -> option JsVal.




End Validation.

(** ** More theorems at concrete inputs *)

Lemma first_tick_is_installed : installed (listeners (host first_tick)).
Proof. left. vm_compute. reflexivity. Qed.

Lemma shutdown_releases_witness :
  (installed (listeners (host first_tick))
   /\ watchdog (vars first_tick) = JNum 7
   /\ 7 <> 0
   /\ is_shutdown EvBeforeUnload = true)
  /\ effects_of (step json_samples EvBeforeUnload first_tick)
     = [Log "concurrenceview: DISPOSE"; ClearInterval (JNum 7);
        release_request first_tick]
  /\ ~ In 7 (timers (host (world_of (step json_samples EvBeforeUnload first_tick))))
  /\ watchdog (vars (world_of (step json_samples EvBeforeUnload first_tick)))
     = JBool false.
Proof.
  pose proof first_tick_is_installed as H1.
  assert (watchdog (vars first_tick) = JNum 7) as H2 by (vm_compute; reflexivity).
  assert (7 <> 0) as H3 by discriminate.
  assert (is_shutdown EvBeforeUnload = true) as H4 by reflexivity.
  split; [repeat split; assumption|].
  exact (shutdown_releases_with_last_state json_samples EvBeforeUnload first_tick 7
           H1 H2 H3 H4).
Defined.

Lemma first_notification_witness :
  (listeners (host first_tick) = watchdog_listeners
   /\ currentTime_prop (host first_tick) = None
   /\ loadedmetadata (vars first_tick) = false
   /\ fistSent (this first_tick) = false)
  /\ lasTime (vars (world_of (run json_samples [EvLoadedMetadata; EvTimeUpdate 3]
                                  first_tick)))
     = lasTime (vars first_tick)
  /\ lasTime (vars (world_of
                      (run json_samples
                           [EvLoadedMetadata; EvTimeUpdate 3; EvTimeUpdate (7 # 2)]
                           first_tick)))
     = Math_round (7 # 2)
  /\ lasTime (vars (world_of
                      (run json_samples
                           [EvTimeUpdate 3; EvLoadedMetadata; EvTimeUpdate (7 # 2)]
                           first_tick)))
     = Math_round (7 # 2).
Proof.
  assert (listeners (host first_tick) = watchdog_listeners) as H1
    by (vm_compute; reflexivity).
  assert (currentTime_prop (host first_tick) = None) as H2 by (vm_compute; reflexivity).
  assert (loadedmetadata (vars first_tick) = false) as H3 by (vm_compute; reflexivity).
  assert (fistSent (this first_tick) = false) as H4 by (vm_compute; reflexivity).
  split; [repeat split; assumption|].
  exact (first_notification_is_the_warm_up json_samples 3 (7 # 2) first_tick H1 H2 H3 H4).
Defined.

Lemma start_position_witness :
  let w0 := world_after [] in
  let out0 := snd (sample_session []) in
  let evs0 := [EvLoadedMetadata] in
  let evs1 := [EvTimeUpdate 3; EvTimeUpdate 4; EvTick;
               EvXhr cbUpdate JNull body_granted; EvTick; EvDispose] in
  (concurrenceLimiter fresh_page one_half (urls no_options) = (Some w0, out0)
   /\ forallb (fun ev => negb (is_validate_response ev)) evs0 = true
   /\ truthy JNull = false
   /\ truthy (prop (snd (makeRequest_done json_samples JNull body_granted)) "success")
      = true
   /\ forallb (fun ev => negb (is_loadedmetadata ev)) evs1 = true)
  /\ Forall (reports (if startPosition (mergeOptions defaults (urls no_options)) =? 0
                      then 0
                      else startPosition (mergeOptions defaults (urls no_options))))
            (snd (session json_samples fresh_page one_half (urls no_options)
                    (evs0 ++ EvXhr cbValidate JNull body_granted :: evs1))).
Proof.
  intros w0 out0 evs0 evs1.
  assert (concurrenceLimiter fresh_page one_half (urls no_options) = (Some w0, out0))
    as H1 by (vm_compute; reflexivity).
  assert (forallb (fun ev => negb (is_validate_response ev)) evs0 = true) as H2
    by reflexivity.
  assert (truthy JNull = false) as H3 by reflexivity.
  assert (truthy (prop (snd (makeRequest_done json_samples JNull body_granted)) "success")
          = true) as H4 by (vm_compute; reflexivity).
  assert (forallb (fun ev => negb (is_loadedmetadata ev)) evs1 = true) as H5
    by reflexivity.
  split; [repeat split; assumption|].
  exact (start_position_until_loadedmetadata json_samples fresh_page one_half
           (urls no_options) evs0 JNull body_granted evs1 w0 out0 H1 H2 H3 H4 H5).
Defined.

(** * The failure policy of the watchdog *)

(** ** The termination path of a running watchdog *)

Lemma dispose_listeners_release (w : World) (id : Z) :
  installed (listeners (host w)) ->
  watchdog (vars w) = JNum id ->
  id <> 0 ->
  effects_of (fire ev_dispose w) = release_trace id w
  /\ watchdog (vars (world_of (fire ev_dispose w))) = JBool false
  /\ timers (host (world_of (fire ev_dispose w)))
     = filter (fun t => negb (t =? id)) (timers (host w))
  /\ failedRequest (vars (world_of (fire ev_dispose w))) = failedRequest (vars w).
Proof.
  intros Hls Hwd Hid.
  assert ((id =? 0) = false) as Hz by now apply Z.eqb_neq.
  destruct w as [[st i tm pa po ct ls pe] [o fs tc] [wd lt tk pid lm pr fr]].
  cbn in Hls, Hwd. subst wd. unfold release_trace, release_request.
  destruct Hls as [->|(p & ->)]; unfold watchdog_listeners;
    js_eval; rewrite Hz; cbn [negb];
    (split; [reflexivity|split; [reflexivity|split; reflexivity]]).
Qed.

(** [blockPlayer] on a running watchdog, written out: the notification,
    the pause and the dispose of the player, then the clean-up of the
    dispose listener. *)
Lemma blockPlayer_trace (code error reason : JsVal) (w : World) (id : Z) :
  installed (listeners (host w)) ->
  watchdog (vars w) = JNum id ->
  id <> 0 ->
  effects_of (blockPlayer code error reason w)
  = (block (js_or code (JStr "error")) (js_or reason default_reason) error
     ++ release_trace id w)%list
  /\ watchdog (vars (world_of (blockPlayer code error reason w))) = JBool false
  /\ timers (host (world_of (blockPlayer code error reason w)))
     = filter (fun t => negb (t =? id)) (timers (host w))
  /\ failedRequest (vars (world_of (blockPlayer code error reason w)))
     = failedRequest (vars w).
Proof.
  intros Hls Hwd Hid. rewrite blockPlayer_unfold. cbn [effects_of world_of fst snd].
  destruct (dispose_listeners_release (upd_host (set_paused true) w) id Hls Hwd Hid)
    as (Hout & Hw & Ht & Hf).
  rewrite Hout. split; [reflexivity|]. split; [exact Hw|]. split; [exact Ht|exact Hf].
Qed.

Lemma filter_out_only (id : Z) : filter (fun t => negb (t =? id)) [id] = [].
Proof. cbn. now rewrite Z.eqb_refl. Qed.

Lemma count_block_release (code reason error : JsVal) (id : Z) (w : World)
      (pre : string) :
  count is_blocked_event (Log pre :: block code reason error ++ release_trace id w)
  = 1%nat.
Proof. reflexivity. Qed.

Section Policy.

Variable JSON_parse : string -> option JsVal.

(** ** One response, then the next tick *)








(** ** The three outcomes of an update *)



Lemma update_refused (id k : Z) (err : JsVal) (body : string) (w : World) :
  awaiting_update id k w ->
  truthy err = false ->
  truthy (prop (snd (makeRequest_done JSON_parse err body)) "success") = false ->
  effects_of (step JSON_parse (EvXhr cbUpdate err body) w)
  = (Log "Error: Player Auth error"
     :: block player
              (js_or (snd (makeRequest_done JSON_parse err body)) default_reason)
              (JStr "noauth")
     ++ release_trace id w)%list
  /\ watchdog (vars (world_of (step JSON_parse (EvXhr cbUpdate err body) w)))
     = JBool false
  /\ timers (host (world_of (step JSON_parse (EvXhr cbUpdate err body) w))) = []
  /\ failedRequest (vars (world_of (step JSON_parse (EvXhr cbUpdate err body) w))) = 0.
Proof.
  intros (Hid & Hls & Hwd & Ht & Hp & Hin & Hk) He Hok.
  rewrite step_xhr, Hin. cbn [callback].
  rewrite wdf_done_denied
    by (rewrite ?makeRequest_done_error, ?Hok, ?andb_false_r; auto).
  cbn [world_of effects_of fst snd].
  set (w1 := upd_vars _ _).
  destruct (blockPlayer_trace player (JStr "noauth")
              (snd (makeRequest_done JSON_parse err body))
              w1 id Hls Hwd Hid) as (Hout & Hw & Ht' & Hf).
  rewrite Hout. split; [reflexivity|]. split; [exact Hw|]. split.
  - rewrite Ht'. change (timers (host w1)) with (timers (host w)). rewrite Ht.
    apply filter_out_only.
  - rewrite Hf. reflexivity.
Qed.


(** ** The claims about the update responses *)


(** C2.  A running watchdog, whatever its failure counter holds: a
    response to the update request in flight that arrives without a
    transport error and parses to a value whose [success] is falsy
    terminates the session on that response.  The effects are, in order
    and with nothing else: the log line, the block notification with the
    response as its reason and ['noauth'], the pause and the dispose of the
    player, then the clean-up of the dispose listener, which clears the
    interval and sends the release request; the handle is dropped and no
    interval is left. *)
Theorem denial_terminates_at_once
        (w : World) (id k : Z) (err : JsVal) (body : string) (v : JsVal) :
  awaiting_update id k w ->
  truthy err = false ->
  body <> "" ->
  JSON_parse body = Some v ->
  truthy (prop v "success") = false ->
  let r := step JSON_parse (EvXhr cbUpdate err body) w in
  effects_of r
  = (Log "Error: Player Auth error"
     :: block player (js_or v default_reason) (JStr "noauth")
     ++ release_trace id w)%list
  /\ count is_blocked_event (effects_of r) = 1%nat
  /\ watchdog (vars (world_of r)) = JBool false
  /\ timers (host (world_of r)) = [].
Proof.
  intros Hw He Hbody Hparse Hok r. subst r.
  assert (snd (makeRequest_done JSON_parse err body) = v) as Hv.
  { unfold makeRequest_done. cbn [snd].
    apply String.eqb_neq in Hbody. now rewrite Hbody, Hparse. }
  destruct (update_refused id k err body w Hw He) as (Hout & Hwd & Ht & _);
    [now rewrite Hv|].
  rewrite Hv in Hout. rewrite Hout.
  split; [reflexivity|]. split; [apply count_block_release|].
  split; [exact Hwd|exact Ht].
Qed.

(** C3, as the code has it.  A running watchdog, whatever its failure
    counter holds: a response to the update request in flight without a
    transport error whose body is empty or does not parse is handled like a
    denial.  The counter is set to zero and the session terminates on that
    response: the log line, the block notification with ['noauth'] and, as
    its reason, the stand-in object for an empty body or the default text
    for a body that does not parse, the pause and the dispose of the
    player, then the interval cleared and the release request sent, and
    nothing else. *)
Theorem unparsable_update_terminates_at_once
        (w : World) (id k : Z) (err : JsVal) (body : string) :
  awaiting_update id k w ->
  truthy err = false ->
  body = "" \/ JSON_parse body = None ->
  let r := step JSON_parse (EvXhr cbUpdate err body) w in
  effects_of r
  = (Log "Error: Player Auth error"
     :: block player
              (if (body =? "")%string
               then JObj [("error", JStr "invalid body"); ("body", JStr body)]
               else default_reason)
              (JStr "noauth")
     ++ release_trace id w)%list
  /\ count is_blocked_event (effects_of r) = 1%nat
  /\ failedRequest (vars (world_of r)) = 0
  /\ watchdog (vars (world_of r)) = JBool false
  /\ timers (host (world_of r)) = [].
Proof.
  intros Hw He Hbody r. subst r.
  assert (snd (makeRequest_done JSON_parse err body)
          = if (body =? "")%string
            then JObj [("error", JStr "invalid body"); ("body", JStr body)]
            else JNull) as Hv.
  { unfold makeRequest_done. cbn [snd].
    destruct (body =? "")%string eqn:Hb; cbn [negb]; [reflexivity|].
    destruct Hbody as [->| ->]; [discriminate|reflexivity]. }
  destruct (update_refused id k err body w Hw He) as (Hout & Hwd & Ht & Hfr).
  { rewrite Hv. now destruct (body =? "")%string. }
  assert (js_or (snd (makeRequest_done JSON_parse err body)) default_reason
          = if (body =? "")%string
            then JObj [("error", JStr "invalid body"); ("body", JStr body)]
            else default_reason) as Hreason
    by (rewrite Hv; now destruct (body =? "")%string).
  rewrite Hreason in Hout. rewrite Hout.
  split; [reflexivity|]. split; [apply count_block_release|].
  split; [exact Hfr|]. split; [exact Hwd|exact Ht].
Qed.

End Policy.

(** ** The failure policy at concrete inputs *)

(** The sample session after its granted validation: the watchdog runs on
    the interval of the page and the first update request is out. *)
Lemma first_tick_is_awaiting : awaiting_update 7 0 first_tick.
Proof.
  unfold awaiting_update.
  split; [discriminate|].
  split; [left; vm_compute; reflexivity|].
  split; [vm_compute; reflexivity|].
  split; [vm_compute; reflexivity|].
  split; [vm_compute; reflexivity|].
  split; vm_compute; reflexivity.
Qed.


Lemma denial_witness :
  let r := step json_samples (EvXhr cbUpdate JNull body_denied) first_tick in
  (awaiting_update 7 0 first_tick
   /\ truthy JNull = false
   /\ body_denied <> ""
   /\ json_samples body_denied = Some (JObj [("success", JBool false)])
   /\ truthy (prop (JObj [("success", JBool false)]) "success") = false)
  /\ effects_of r
     = (Log "Error: Player Auth error"
        :: block player (js_or (JObj [("success", JBool false)]) default_reason)
                 (JStr "noauth")
        ++ release_trace 7 first_tick)%list
  /\ count is_blocked_event (effects_of r) = 1%nat
  /\ watchdog (vars (world_of r)) = JBool false
  /\ timers (host (world_of r)) = [].
Proof.
  intros r.
  pose proof first_tick_is_awaiting as H1.
  assert (truthy JNull = false) as H2 by reflexivity.
  assert (body_denied <> "") as H3 by (vm_compute; discriminate).
  assert (json_samples body_denied = Some (JObj [("success", JBool false)])) as H4
    by (vm_compute; reflexivity).
  assert (truthy (prop (JObj [("success", JBool false)]) "success") = false) as H5
    by reflexivity.
  split.
  - split; [exact H1|]. split; [exact H2|]. split; [exact H3|]. split; [exact H4|exact H5].
  - exact (denial_terminates_at_once json_samples first_tick 7 0 JNull body_denied
             (JObj [("success", JBool false)]) H1 H2 H3 H4 H5).
Defined.

Lemma unparsable_update_witness :
  let r := step json_samples (EvXhr cbUpdate JNull body_html) first_tick in
  (awaiting_update 7 0 first_tick
   /\ truthy JNull = false
   /\ (body_html = "" \/ json_samples body_html = None))
  /\ effects_of r
     = (Log "Error: Player Auth error"
        :: block player
                 (if (body_html =? "")%string
                  then JObj [("error", JStr "invalid body"); ("body", JStr body_html)]
                  else default_reason)
                 (JStr "noauth")
        ++ release_trace 7 first_tick)%list
  /\ count is_blocked_event (effects_of r) = 1%nat
  /\ failedRequest (vars (world_of r)) = 0
  /\ watchdog (vars (world_of r)) = JBool false
  /\ timers (host (world_of r)) = [].
Proof.
  intros r.
  pose proof first_tick_is_awaiting as H1.
  assert (truthy JNull = false) as H2 by reflexivity.
  assert (body_html = "" \/ json_samples body_html = None) as H3
    by (right; vm_compute; reflexivity).
  split.
  - split; [exact H1|]. split; [exact H2|exact H3].
  - exact (unparsable_update_terminates_at_once json_samples first_tick 7 0 JNull
             body_html H1 H2 H3).
Defined.
